(** * Jobkonnect backend: the token gate and the entity operations

    A shallow embedding of [jwtfunc.py] (token issue and the
    [token_required] decorator) and of [db_operations.py] (the operations on
    users, jobs and applications), with the properties the specification
    states about them.

    Python dictionaries are finite maps from strings to dynamic values,
    tables are finite maps from the integer primary key to a row, and code
    that raises, catches and runs [finally] blocks lives in a small
    state-and-exception monad over the world of the data store. *)

From Stdlib Require Import ZArith Ascii String.
From stdpp Require Import gmap strings list fin_maps pretty.

Local Open Scope string_scope.
Local Open Scope list_scope.
Local Open Scope Z_scope.

(** ** Dynamic values and dictionaries *)

(** The Python values that occur in payloads, request data and columns. *)
Inductive value :=
  | VNone
  | VBool (b : bool)
  | VInt (z : Z)
  | VStr (s : string).

#[global] Instance value_eq_dec : EqDecision value.
Proof. solve_decision. Defined.

Abbreviation dict := (gmap string value).

(** Exceptions that the modelled code raises or lets escape. *)
Inductive exn :=
  | KeyError (key : string)
  | ValueError (msg : string)
  | UnboundLocalError (var : string)
  | NoResultFound
  | MultipleResultsFound
  | OperationalError.

(** [isinstance(e, SQLAlchemyError)]: the two ORM lookup errors derive from
    it, as does every failure of the store itself. *)
Definition is_SQLAlchemyError (e : exn) : bool :=
  match e with
  | NoResultFound | MultipleResultsFound | OperationalError => true
  | _ => false
  end.

(** ** Strings as Python sees a request header *)

Module PyStr.

(** A header value is a sequence of code points below 256; these are the
    ones for which [str.isspace] holds. *)
Definition isspace (c : ascii) : bool :=
  let n := Z.of_N (N_of_ascii c) in
  ((9 <=? n) && (n <=? 13)) || ((28 <=? n) && (n <=? 32))
  || (n =? 133) || (n =? 160).

(** [str.lower] on one code point below 256. *)
Definition lower_char (c : ascii) : ascii :=
  let n := Z.of_N (N_of_ascii c) in
  if ((65 <=? n) && (n <=? 90))
     || ((192 <=? n) && (n <=? 222) && negb (n =? 215))
  then ascii_of_N (Z.to_N (n + 32)) else c.

Fixpoint lower (s : string) : string :=
  match s with
  | EmptyString => EmptyString
  | String c s' => String (lower_char c) (lower s')
  end.

Definition snoc (s : string) (c : ascii) : string :=
  s +:+ String c EmptyString.

(** [s.split()] with no separator: the maximal runs of characters that
    are not whitespace.  [cur] is the run being read. *)
Fixpoint split_from (cur : string) (s : string) : list string :=
  match s with
  | EmptyString => if decide (cur = EmptyString) then [] else [cur]
  | String c s' =>
      if isspace c
      then (if decide (cur = EmptyString) then split_from EmptyString s'
            else cur :: split_from EmptyString s')
      else split_from (snoc cur c) s'
  end.

Definition split (s : string) : list string := split_from EmptyString s.

(** No character of [s] is whitespace. *)
Fixpoint solid (s : string) : bool :=
  match s with
  | EmptyString => true
  | String c s' => negb (isspace c) && solid s'
  end.

End PyStr.

(** ** The token library *)

(** What [jwt.decode] does: it returns the claims, or raises
    [ExpiredSignatureError], or raises another [InvalidTokenError]. *)
Inductive decode_result :=
  | Decoded (data : dict)
  | ExpiredSignatureError
  | InvalidTokenError.

(** Registered claims other than [exp] that the library validates when they
    are present: [iat] and [nbf] before it looks at [exp], the others
    after. *)
Definition other_registered : list string :=
  ["iat"; "nbf"; "iss"; "aud"; "sub"; "jti"].

Definition plain_claims (p : dict) : Prop :=
  Forall (fun k => p !! k = None) other_registered.

(** The interface of the signing library used with HS256.  Times are whole
    seconds since the epoch, which is what the library embeds for [exp].
    The laws say that a token is a non-empty run of printable characters
    and how a token signed with a key decodes under that same key; the
    instant [now = exp] is left to the library.  A token past its expiry
    is reported as expired when nothing that the library checks earlier,
    the signature and the claims [iat] and [nbf], stands in the way, and
    it never decodes, whatever the key it was signed with. *)
Class JwtLib := {
  jwt_encode : dict -> string -> string;
  jwt_decode : string -> string -> Z -> decode_result;
  jwt_compact : forall p k,
    jwt_encode p k <> EmptyString /\ PyStr.solid (jwt_encode p k) = true;
  jwt_decode_fresh : forall p k e now,
    p !! "exp" = Some (VInt e) -> plain_claims p -> now < e ->
    jwt_decode (jwt_encode p k) k now = Decoded p;
  jwt_decode_stale : forall p k e now,
    p !! "exp" = Some (VInt e) ->
    p !! "iat" = None -> p !! "nbf" = None -> e < now ->
    jwt_decode (jwt_encode p k) k now = ExpiredSignatureError;
  jwt_decode_past : forall p k k' e now data,
    p !! "exp" = Some (VInt e) -> e < now ->
    jwt_decode (jwt_encode p k) k' now <> Decoded data
}.

(** ** jwtfunc.py *)

Section Jwtfunc.

Context `{JwtLib}.

(** [app.config['SECRET_KEY']]. *)
Variable SECRET_KEY : string.

(** [datetime.isoformat], which only renders the expiry for the client. *)
Variable isoformat : Z -> string.

Definition hour : Z := 3600.

(** [generate_token(user_id, username, role)], with the reading [utcnow]
    of the clock made explicit. *)
Definition generate_token (utcnow : Z) (user_id username role : value)
  : string * string :=
  let expiration := utcnow + hour in
  let payload : dict :=
    {[ "id" := user_id; "username" := username; "role" := role;
       "exp" := VInt expiration ]} in
  let token := jwt_encode payload SECRET_KEY in
  (token, isoformat expiration).

(** What a call of the decorated function yields: the 401 response with
    its error text, the result of the wrapped function, or an exception
    that no handler of the decorator catches. *)
Inductive gate_result (R : Type) :=
  | Unauthorized (error : string)
  | Passed (r : R)
  | Uncaught (e : exn).
#[global] Arguments Unauthorized {R} error.
#[global] Arguments Passed {R} r.
#[global] Arguments Uncaught {R} e.

(** The wrapped function [f(current_user, *args, **kwargs)] acts on some
    state [S]. *)
Definition view (Args S R : Type) : Type := dict -> Args -> S -> R * S.

(** The body of the [try] block after [jwt.decode] returned [data]. *)
Definition current_user_of (data : dict) : exn + dict :=
  match data !! "id" with
  | None => inl (KeyError "id")
  | Some i =>
      match data !! "username" with
      | None => inl (KeyError "username")
      | Some u =>
          match data !! "role" with
          | None => inl (KeyError "role")
          | Some r =>
              inr ({[ "id" := i; "username" := u; "role" := r ]} : dict)
          end
      end
  end.

(** [token_required(f)]: the function [decorated], applied to the request
    headers, the clock reading used by [jwt.decode], and the arguments. *)
Definition token_required {Args S R} (f : view Args S R)
    (headers : gmap string string) (now : Z) (args : Args) (st : S)
  : gate_result R * S :=
  match headers !! "Authorization" with
  | None => (Unauthorized "Authorization header is missing!", st)
  | Some auth_header =>
      if decide (auth_header = EmptyString)
      then (Unauthorized "Authorization header is missing!", st)
      else
        let parts := PyStr.split auth_header in
        match parts with
        | [scheme; token] =>
            if decide (PyStr.lower scheme = "bearer") then
              match jwt_decode token SECRET_KEY now with
              | Decoded data =>
                  match current_user_of data with
                  | inr current_user =>
                      let '(r, st') := f current_user args st in
                      (Passed r, st')
                  | inl e => (Uncaught e, st)
                  end
              | ExpiredSignatureError =>
                  (Unauthorized "Token has expired!", st)
              | InvalidTokenError => (Unauthorized "Invalid token!", st)
              end
            else (Unauthorized "Invalid token format!", st)
        | _ => (Unauthorized "Invalid token format!", st)
        end
  end.

End Jwtfunc.

(** ** The data model *)

(** The columns that [register_user] passes to [User(...)], and the hash
    that [set_password] stores. *)
Module User.
Record t := {
  username : value;
  email : value;
  role : value;
  phone_number : value;
  address : value;
  first_name : value;
  last_name : value;
  company_name : value;
  website : value;
  contact_info : value;
  password_hash : value
}.
End User.

(** The columns that [create_job] passes to [Job(...)]. *)
Module Job.
Record t := {
  title : value;
  description : value;
  requirements : value;
  employer_id : value;
  salary : value;
  location : value;
  job_type : value;
  application_deadline : value;
  skills_required : value;
  preferred_qualifications : value
}.
End Job.

(** The columns that [create_application] passes to [Application(...)]. *)
Module Application.
Record t := {
  job_id : value;
  employer_id : value;
  user_id : value;
  years_of_experience : value;
  resume : value;
  cover_letter : value;
  status : value;
  name : value;
  school_name : value;
  portfolio : value;
  skills : value
}.

(** [application.status = v]. *)
Definition set_status (v : value) (a : t) : t :=
  {| job_id := job_id a; employer_id := employer_id a;
     user_id := user_id a; years_of_experience := years_of_experience a;
     resume := resume a; cover_letter := cover_letter a; status := v;
     name := name a; school_name := school_name a;
     portfolio := portfolio a; skills := skills a |}.
End Application.

(** Modelled from the spec: the model classes ([models/user.py],
    [models/job.py], [models/application.py]) are not among the sources.
    Their methods that the operations call are parameters: the password
    check of the hasher interface and the [to_dict] projection of each
    entity, which takes the primary key and the row. *)
Class Models := {
  check_password : User.t -> value -> bool;
  user_to_dict : Z -> User.t -> dict;
  job_to_dict : Z -> Job.t -> dict;
  application_to_dict : Z -> Application.t -> dict
}.

(** ** The store and its sessions *)

(** A table maps the primary key to the row. *)
Record Store := {
  users : gmap Z User.t;
  jobs : gmap Z Job.t;
  applications : gmap Z Application.t
}.

(** A session holds the rows as its transaction sees them: the committed
    rows with the additions, changes and deletions not yet committed. *)
Record Session := {
  pending : Store;
  is_open : bool
}.

(** The world of the operations: the committed store, every session made
    so far (a session handle is its position), and for each coming round
    trip to the store whether it fails. *)
Record World := {
  db : Store;
  sessions : list Session;
  faults : list bool
}.

(** The rows of a table that satisfy a condition, as key and row. *)
Definition select {T} (table : Store -> gmap Z T) (cond : Z -> T -> bool)
    (st : Store) : list (Z * T) :=
  filter (fun r => cond r.1 r.2 = true) (map_to_list (table st)).

(** [filter_by(email=email)]. *)
Definition by_email (email : value) (_ : Z) (u : User.t) : bool :=
  bool_decide (User.email u = email).

(** A value as it is compared with an Integer column.  A truth value is a
    whole number to Python, where [True == 1], and to the store, which
    binds [True] as 1 and [False] as 0; every other value is compared as it
    is. *)
Definition bound (v : value) : value :=
  match v with
  | VBool b => VInt (if b then 1 else 0)
  | _ => v
  end.

(** [column == v] on an Integer column. *)
Definition same_key (column v : value) : bool :=
  bool_decide (bound column = bound v).

(** [filter(Application.job_id == job_id)]. *)
Definition by_job_id (job_id : Z) (_ : Z) (a : Application.t) : bool :=
  same_key (Application.job_id a) (VInt job_id).

(** [filter_by(user_id=uid, job_id=jid)]. *)
Definition by_pair (uid jid : value) (_ : Z) (a : Application.t) : bool :=
  same_key (Application.user_id a) uid
  && same_key (Application.job_id a) jid.

Inductive outcome (A : Type) :=
  | Return (a : A)
  | Raise (e : exn).
Arguments Return {A} a.
Arguments Raise {A} e.

Definition M (A : Type) : Type := World -> outcome A * World.

Definition ret {A} (a : A) : M A := fun w => (Return a, w).

Definition raise {A} (e : exn) : M A := fun w => (Raise e, w).

Definition bind {A B} (m : M A) (k : A -> M B) : M B :=
  fun w =>
    match m w with
    | (Return a, w') => k a w'
    | (Raise e, w') => (Raise e, w')
    end.

Notation "'let*' x ':=' m 'in' k" := (bind m (fun x => k))
  (at level 10, x name, m at level 100, k at level 200).

Notation "'run' m 'in' k" := (bind m (fun _ => k))
  (at level 10, m at level 100, k at level 200).

(** [try: body except ...: handler]; [handler e] is [None] when no clause
    matches [e]. *)
Definition try_except {A} (body : M A) (handler : exn -> option (M A))
  : M A :=
  fun w =>
    match body w with
    | (Return a, w') => (Return a, w')
    | (Raise e, w') =>
        match handler e with
        | Some h => h w'
        | None => (Raise e, w')
        end
    end.

(** [try: body finally: fin]. *)
Definition try_finally {A} (body : M A) (fin : M unit) : M A :=
  fun w =>
    match body w with
    | (o, w') =>
        match fin w' with
        | (Return _, w'') => (o, w'')
        | (Raise e, w'') => (Raise e, w'')
        end
    end.

(** [for x in xs: body(x)]. *)
Fixpoint for_each {A} (xs : list A) (body : A -> M unit) : M unit :=
  match xs with
  | [] => ret tt
  | x :: xs' => run body x in for_each xs' body
  end.

(** [data[key]]. *)
Definition getitem (data : dict) (key : string) : M value :=
  match data !! key with
  | Some v => ret v
  | None => raise (KeyError key)
  end.

(** [data.get(key)]. *)
Definition dict_get (data : dict) (key : string) : value :=
  default VNone (data !! key).

Module Sess.

(** [SessionLocal()]. *)
Definition SessionLocal : M nat :=
  fun w =>
    (Return (length (sessions w)),
     {| db := db w;
        sessions := sessions w ++ [{| pending := db w; is_open := true |}];
        faults := faults w |}).

(** One round trip to the store, which fails when the world says so. *)
Definition round_trip : M unit :=
  fun w =>
    match faults w with
    | [] => (Return tt, w)
    | b :: fs =>
        let w' := {| db := db w; sessions := sessions w; faults := fs |} in
        if b then (Raise OperationalError, w') else (Return tt, w')
    end.

(** The rows as the session sees them. *)
Definition rows (session : nat) : M Store :=
  fun w =>
    (Return (default (db w) (pending <$> sessions w !! session)), w).

Definition change (session : nat) (g : Session -> Session) : M unit :=
  fun w =>
    (Return tt,
     {| db := db w;
        sessions := alter g session (sessions w);
        faults := faults w |}).

(** [session.query(T).filter(...)], run by one of the three fetches. *)
Definition query {T} (table : Store -> gmap Z T) (cond : Z -> T -> bool)
    (session : nat) : M (list (Z * T)) :=
  run round_trip in
  let* st := rows session in
  ret (select table cond st).

(** [.all()]. *)
Definition all {T} (q : M (list (Z * T))) : M (list (Z * T)) := q.

(** [.first()]. *)
Definition first {T} (q : M (list (Z * T))) : M (option (Z * T)) :=
  let* rs := q in ret (head rs).

(** [.one()]. *)
Definition one {T} (q : M (list (Z * T))) : M (Z * T) :=
  let* rs := q in
  match rs with
  | [] => raise NoResultFound
  | [r] => ret r
  | _ => raise MultipleResultsFound
  end.

(** [session.query(T).get(id)]. *)
Definition get {T} (table : Store -> gmap Z T) (session : nat) (id : Z)
  : M (option T) :=
  run round_trip in
  let* st := rows session in
  ret (table st !! id).

Definition on_pending (g : Store -> Store) (s : Session) : Session :=
  {| pending := g (pending s); is_open := is_open s |}.

Definition with_jobs (g : gmap Z Job.t -> gmap Z Job.t) (st : Store)
  : Store :=
  {| users := users st; jobs := g (jobs st);
     applications := applications st |}.

Definition with_applications
    (g : gmap Z Application.t -> gmap Z Application.t) (st : Store)
  : Store :=
  {| users := users st; jobs := jobs st;
     applications := g (applications st) |}.

(** The key that the store gives to the next row of a table. *)
Definition next_id {T} (table : gmap Z T) : Z :=
  1 + map_fold (fun k _ acc => Z.max k acc) 0 table.

(** [session.add(job)]; yields the key the row will have. *)
Definition add_job (session : nat) (j : Job.t) : M Z :=
  let* st := rows session in
  let id := next_id (jobs st) in
  run change session (on_pending (with_jobs (insert id j))) in
  ret id.

(** [session.add(application)]. *)
Definition add_application (session : nat) (a : Application.t) : M Z :=
  let* st := rows session in
  let id := next_id (applications st) in
  run change session (on_pending (with_applications (insert id a))) in
  ret id.

(** An assignment to an attribute of a loaded application. *)
Definition put_application (session : nat) (id : Z) (a : Application.t)
  : M unit :=
  change session (on_pending (with_applications (insert id a))).

(** [session.delete(application)]. *)
Definition delete_application (session : nat) (id : Z) : M unit :=
  change session (on_pending (with_applications (delete id))).

(** [session.delete(job)]. *)
Definition delete_job (session : nat) (id : Z) : M unit :=
  change session (on_pending (with_jobs (delete id))).

(** [session.commit()]: the pending rows become the committed ones, or
    the round trip fails and nothing is committed. *)
Definition commit (session : nat) : M unit :=
  run round_trip in
  let* st := rows session in
  fun w =>
    (Return tt, {| db := st; sessions := sessions w; faults := faults w |}).

(** [session.rollback()]. *)
Definition rollback (session : nat) : M unit :=
  fun w =>
    change session
      (fun s => {| pending := db w; is_open := is_open s |}) w.

(** [session.close()]. *)
Definition close (session : nat) : M unit :=
  fun w =>
    change session (fun _ => {| pending := db w; is_open := false |}) w.

End Sess.

(** The sessions that are still open. *)
Definition open_sessions (w : World) : list Session :=
  filter (fun s => is_open s = true) (sessions w).

(** ** db_operations.py *)

Section DbOperations.

Context `{Models}.

(** The clauses [except NoResultFound], [except MultipleResultsFound] and
    [except SQLAlchemyError] of [login_user], each returning [None]. *)
Definition login_handlers {A} (e : exn) : option (M (option A)) :=
  match e with
  | NoResultFound => Some (ret None)
  | MultipleResultsFound => Some (ret None)
  | _ => if is_SQLAlchemyError e then Some (ret None) else None
  end.

(** [login_user(email, password)]; a user object is its key and row. *)
Definition login_user (email password : value)
  : M (option (Z * User.t)) :=
  try_except
    (let* session := Sess.SessionLocal in
     let* user :=
       Sess.one (Sess.query users (by_email email) session) in
     if check_password user.2 password
     then ret (Some user)
     else ret None)
    login_handlers.

(** [get_all_users()]. *)
Definition get_all_users : M (list dict) :=
  let* session := Sess.SessionLocal in
  let* us := Sess.all (Sess.query users (fun _ _ => true) session) in
  ret (map (fun u => user_to_dict u.1 u.2) us).

(** [Job(title=data['title'], ...)], the subscripts read in order. *)
Definition Job_of (data : dict) : M Job.t :=
  let* title := getitem data "title" in
  let* description := getitem data "description" in
  let* requirements := getitem data "requirements" in
  let* employer_id := getitem data "employer_id" in
  let* salary := getitem data "salary" in
  let* location := getitem data "location" in
  let* job_type := getitem data "job_type" in
  let* application_deadline := getitem data "application_deadline" in
  let* skills_required := getitem data "skills_required" in
  let* preferred_qualifications :=
    getitem data "preferred_qualifications" in
  ret {| Job.title := title; Job.description := description;
         Job.requirements := requirements;
         Job.employer_id := employer_id; Job.salary := salary;
         Job.location := location; Job.job_type := job_type;
         Job.application_deadline := application_deadline;
         Job.skills_required := skills_required;
         Job.preferred_qualifications := preferred_qualifications |}.

(** [create_job(data)].  The handler [except Exception] uses the local
    [session]: when [Job(...)] raised, that name is not bound yet and the
    handler itself raises. *)
Definition create_job (data : dict) : M (option Z) :=
  fun w =>
    match Job_of data w with
    | (Raise _, w1) => raise (UnboundLocalError "session") w1
    | (Return new_job, w1) =>
        (let* session := Sess.SessionLocal in
         try_except
           (let* id := Sess.add_job session new_job in
            run Sess.commit session in
            ret (Some id))
           (fun _ =>
              Some (run Sess.rollback session in ret None))) w1
    end.

(** [delete_job(job_id)].  [SessionLocal()] is the first statement of the
    [try] block and does not raise, so the handler and the [finally]
    block always find [session] bound. *)
Definition delete_job (job_id : Z) : M bool :=
  let* session := Sess.SessionLocal in
  try_finally
    (try_except
       (let* job := Sess.get jobs session job_id in
        match job with
        | Some _ =>
            let* related_applications :=
              Sess.all
                (Sess.query applications (by_job_id job_id) session) in
            run for_each related_applications
                  (fun application =>
                     Sess.delete_application session application.1) in
            run Sess.delete_job session job_id in
            run Sess.commit session in
            ret true
        | None => ret false
        end)
       (fun e =>
          if is_SQLAlchemyError e
          then Some (run Sess.rollback session in ret false)
          else None))
    (Sess.close session).

(** [create_application(data)]. *)
Definition create_application (data : dict)
  : M (Z * Application.t) :=
  let* session := Sess.SessionLocal in
  let* uid := getitem data "user_id" in
  let* jid := getitem data "job_id" in
  let* existing_application :=
    Sess.first (Sess.query applications (by_pair uid jid) session) in
  match existing_application with
  | Some _ => raise (ValueError "You have already applied for this job")
  | None =>
      let* job_id := getitem data "job_id" in
      let* employer_id := getitem data "employer_id" in
      let* user_id := getitem data "user_id" in
      let years_of_experience := dict_get data "years_of_experience" in
      let* resume := getitem data "resume" in
      let* cover_letter := getitem data "cover_letter" in
      let* status := getitem data "status" in
      let* name := getitem data "name" in
      let* school_name := getitem data "school_name" in
      let* portfolio := getitem data "portfolio" in
      let* skills := getitem data "skills" in
      let application :=
        {| Application.job_id := job_id;
           Application.employer_id := employer_id;
           Application.user_id := user_id;
           Application.years_of_experience := years_of_experience;
           Application.resume := resume;
           Application.cover_letter := cover_letter;
           Application.status := status;
           Application.name := name;
           Application.school_name := school_name;
           Application.portfolio := portfolio;
           Application.skills := skills |} in
      let* id := Sess.add_application session application in
      run Sess.commit session in
      ret (id, application)
  end.

(** [update_application_status(application_id, data)].  The loaded
    [application] is the row [a]; assigning its status changes the object
    and, through the session that tracks it, the pending row. *)
Definition update_application_status (application_id : Z) (data : dict)
  : M (option dict) :=
  let* session := Sess.SessionLocal in
  try_finally
    (try_except
       (let* application :=
          Sess.get applications session application_id in
        match application with
        | None => ret None
        | Some a =>
            let* a' :=
              match data !! "status" with
              | Some v =>
                  let a' := Application.set_status v a in
                  run Sess.put_application session application_id a' in
                  ret a'
              | None => ret a
              end in
            run Sess.commit session in
            let application_dict :=
              application_to_dict application_id a' in
            ret (Some application_dict)
        end)
       (fun e =>
          if is_SQLAlchemyError e
          then Some (run Sess.rollback session in ret None)
          else None))
    (Sess.close session).

End DbOperations.

(** ** Notions of the specification *)

(** No round trip to the store fails. *)
Definition reliable (w : World) : Prop :=
  Forall (fun b => b = false) (faults w).

(** The cascade as the specification words it: the job is gone and so is
    every application whose [job_id] is, as the store compares it, that of
    the job. *)
Definition cascade (job_id : Z) (st : Store) : Store :=
  {| users := users st;
     jobs := delete job_id (jobs st);
     applications :=
       filter (fun r => bound (Application.job_id r.2) <> VInt job_id)
              (applications st) |}.

(** The invariant of the data model: at most one application for each pair
    of applicant and job. *)
Definition unique_applications (st : Store) : Prop :=
  forall uid jid,
    (length (select applications (by_pair uid jid) st) <= 1)%nat.

(** The claims that [generate_token] signs. *)
Definition issued_payload (utcnow : Z) (user_id username role : value)
  : dict :=
  {[ "id" := user_id; "username" := username; "role" := role;
     "exp" := VInt (utcnow + hour) ]}.

(** What the gate takes for a malformed header: its parts are not two, or
    the first of them is not [bearer] in any casing. *)
Definition malformed (auth_header : string) : Prop :=
  length (PyStr.split auth_header) <> 2%nat
  \/ PyStr.lower <$> head (PyStr.split auth_header) <> Some "bearer".

(** ** A reference instance of the token library

    A small codec that satisfies the interface: the claims and an
    authentication tag over key and claims, both written as binary digits.
    It makes the laws of [JwtLib] inhabited and lets the gate run on
    concrete requests. *)

#[global] Instance value_countable : Countable value.
Proof.
  refine (inj_countable'
    (fun v => match v with
              | VNone => inl (inl tt)
              | VBool b => inl (inr b)
              | VInt z => inr (inl z)
              | VStr s => inr (inr s)
              end)
    (fun x => match x with
              | inl (inl _) => VNone
              | inl (inr b) => VBool b
              | inr (inl z) => VInt z
              | inr (inr s) => VStr s
              end) _).
  by intros [].
Defined.

Module RefJwt.

Fixpoint bits (p : positive) : string :=
  match p with
  | xH => EmptyString
  | xO q => String "0" (bits q)
  | xI q => String "1" (bits q)
  end.

Fixpoint unbits (s : string) : option positive :=
  match s with
  | EmptyString => Some xH
  | String c s' =>
      if decide (c = "0"%char) then xO <$> unbits s'
      else if decide (c = "1"%char) then xI <$> unbits s'
      else None
  end.

(** Cut a string at its first dot. *)
Fixpoint cut (s : string) : option (string * string) :=
  match s with
  | EmptyString => None
  | String c s' =>
      if decide (c = "."%char) then Some (EmptyString, s')
      else (fun ab => (String c ab.1, ab.2)) <$> cut s'
  end.

Definition tag (k : string) (p : dict) : string := bits (encode (k, p)).

Definition encode_token (p : dict) (k : string) : string :=
  String "j" (bits (encode p) +:+ String "." (tag k p)).

(** The check of the expiry. *)
Definition validate_exp (p : dict) (now : Z) : decode_result :=
  match p !! "exp" with
  | Some (VInt e) => if e <=? now then ExpiredSignatureError else Decoded p
  | Some _ => InvalidTokenError
  | None => Decoded p
  end.

(** The checks of the claims in the order of the library: an issue time
    must be a whole number, a time before which the token is not valid
    must be a whole number that [now] has reached, and then the expiry is
    looked at.  A failure of the first two is an [InvalidTokenError]. *)
Definition validate (p : dict) (now : Z) : decode_result :=
  match p !! "iat" with
  | Some (VStr _) | Some VNone => InvalidTokenError
  | _ =>
      match p !! "nbf" with
      | Some (VInt n) =>
          if now <? n then InvalidTokenError else validate_exp p now
      | Some _ => InvalidTokenError
      | None => validate_exp p now
      end
  end.

Definition decode_token (token k : string) (now : Z) : decode_result :=
  match token with
  | EmptyString => InvalidTokenError
  | String c rest =>
      if decide (c = "j"%char) then
        match cut rest with
        | Some (b, t) =>
            match unbits b ≫= decode with
            | Some p =>
                if decide (t = tag k p) then validate p now
                else InvalidTokenError
            | None => InvalidTokenError
            end
        | None => InvalidTokenError
        end
      else InvalidTokenError
  end.

End RefJwt.

(** An instance of the model layer for the examples: the stored hash is the
    password itself, and each projection lists a few columns. *)
Definition demo_models : Models := {|
  check_password u password := bool_decide (User.password_hash u = password);
  user_to_dict id u :=
    {[ "id" := VInt id; "username" := User.username u;
       "email" := User.email u; "role" := User.role u ]};
  job_to_dict id j :=
    {[ "id" := VInt id; "title" := Job.title j;
       "employer_id" := Job.employer_id j ]};
  application_to_dict id a :=
    {[ "id" := VInt id; "job_id" := Application.job_id a;
       "user_id" := Application.user_id a;
       "status" := Application.status a ]}
|}.

(** ** Sample data for the examples *)

Definition demo_user : User.t := {|
  User.username := VStr "ann";
  User.email := VStr "ann@example.org";
  User.role := VStr "job_seeker";
  User.phone_number := VStr "555";
  User.address := VStr "1 Main St";
  User.first_name := VStr "Ann";
  User.last_name := VStr "Lee";
  User.company_name := VNone;
  User.website := VNone;
  User.contact_info := VNone;
  User.password_hash := VStr "s3cret"
|}.

Definition demo_job : Job.t := {|
  Job.title := VStr "Engineer";
  Job.description := VStr "Builds things";
  Job.requirements := VStr "None";
  Job.employer_id := VInt 2;
  Job.salary := VInt 10;
  Job.location := VStr "Harare";
  Job.job_type := VStr "full-time";
  Job.application_deadline := VStr "2025-01-01";
  Job.skills_required := VStr "Python";
  Job.preferred_qualifications := VNone
|}.

Definition demo_application (job_id : Z) : Application.t := {|
  Application.job_id := VInt job_id;
  Application.employer_id := VInt 2;
  Application.user_id := VInt 1;
  Application.years_of_experience := VNone;
  Application.resume := VStr "cv.pdf";
  Application.cover_letter := VStr "Hello";
  Application.status := VStr "pending";
  Application.name := VStr "Ann Lee";
  Application.school_name := VStr "UZ";
  Application.portfolio := VNone;
  Application.skills := VStr "Python"
|}.

(** One user, two jobs, and an application of the user for each job. *)
Definition demo_store : Store := {|
  users := {[ 1 := demo_user ]};
  jobs := {[ 7 := demo_job; 8 := demo_job ]};
  applications := {[ 3 := demo_application 7; 4 := demo_application 8 ]}
|}.

Definition demo_world : World :=
  {| db := demo_store; sessions := []; faults := [] |}.

(** The same world, in which the third round trip to the store fails. *)
Definition demo_world_failing : World :=
  {| db := demo_store; sessions := []; faults := [false; false; true] |}.

(** A wrapped function that returns the identity it was given and counts
    its calls. *)
Definition demo_view : view unit nat dict :=
  fun current_user _ calls => (current_user, S calls).

Definition demo_isoformat (t : Z) : string := pretty t.

(** * Properties *)

(** ** Splitting a header *)

Module PyStrFacts.
Import PyStr.

Lemma append_cons c (s t : string) :
  String c s +:+ t = String c (s +:+ t).
Proof. reflexivity. Qed.

Lemma append_empty_r (s : string) : s +:+ EmptyString = s.
Proof. induction s as [|c s IH]; [done|]. by rewrite append_cons, IH. Qed.

Lemma snoc_append (cur : string) c s :
  snoc cur c +:+ s = cur +:+ String c s.
Proof.
  unfold snoc. induction cur as [|d cur IH]; [done|].
  by rewrite !append_cons, IH.
Qed.

(** A run without whitespace is one part. *)
Lemma split_from_solid s : forall cur,
  solid s = true -> cur +:+ s <> EmptyString ->
  split_from cur s = [cur +:+ s].
Proof.
  induction s as [|c s IH]; intros cur Hs Hne; simpl in *.
  - rewrite append_empty_r in *. by destruct (decide (cur = EmptyString)).
  - apply andb_prop in Hs as [Hc Hs].
    apply negb_true_iff in Hc. rewrite Hc.
    rewrite IH; rewrite ?snoc_append; done.
Qed.

Lemma split_bearer t :
  solid t = true -> t <> EmptyString ->
  split ("Bearer " +:+ t) = ["Bearer"; t].
Proof.
  intros Hs Hne. unfold split. rewrite !append_cons.
  change (EmptyString +:+ t) with t. cbn.
  by rewrite split_from_solid.
Qed.

Lemma solid_append s t : solid (s +:+ t) = solid s && solid t.
Proof.
  induction s as [|c s IH]; [done|].
  rewrite append_cons. simpl. by rewrite IH, andb_assoc.
Qed.

(** The scheme is read in any casing, and tabs separate as well as
    blanks. *)
Example split_tab_upper :
  split (String "B" (String "E" (String "A" (String "R" (String "E"
          (String "R" (String (ascii_of_nat 9) "abc")))))))
  = ["BEARER"; "abc"]
  /\ lower "BEARER" = "bearer".
Proof. split; reflexivity. Qed.

End PyStrFacts.

(** ** The reference codec satisfies the interface *)

Module RefJwtFacts.
Import RefJwt PyStrFacts.

Lemma unbits_bits p : unbits (bits p) = Some p.
Proof. induction p as [p IH|p IH|]; simpl; by rewrite ?IH. Qed.

Lemma cut_bits p t : cut (bits p +:+ String "." t) = Some (bits p, t).
Proof.
  induction p as [p IH|p IH|]; simpl; rewrite ?append_cons; simpl;
    by rewrite ?IH.
Qed.

Lemma solid_bits p : PyStr.solid (bits p) = true.
Proof. induction p as [p IH|p IH|]; simpl; by rewrite ?IH. Qed.

(** A token decodes to the claims it was made from, when its tag is the
    one of the key it is checked under. *)
Lemma decode_encode_token_under p k k' now :
  decode_token (encode_token p k) k' now
  = if decide (tag k p = tag k' p) then validate p now
    else InvalidTokenError.
Proof.
  unfold decode_token, encode_token. simpl.
  rewrite cut_bits, unbits_bits. simpl. by rewrite decode_encode.
Qed.

Lemma decode_encode_token p k now :
  decode_token (encode_token p k) k now = validate p now.
Proof. rewrite decode_encode_token_under. by rewrite decide_True. Qed.

Lemma encode_token_compact p k :
  encode_token p k <> EmptyString
  /\ PyStr.solid (encode_token p k) = true.
Proof.
  split; [done|]. unfold encode_token, tag. simpl.
  rewrite solid_append. simpl. by rewrite !solid_bits.
Qed.

Lemma plain_claims_early (p : dict) :
  plain_claims p -> p !! "iat" = None /\ p !! "nbf" = None.
Proof.
  unfold plain_claims, other_registered. intros Hp.
  apply Forall_cons in Hp as [Hiat Hp].
  by apply Forall_cons in Hp as [Hnbf _].
Qed.

Lemma decode_fresh (p : dict) k e now :
  p !! "exp" = Some (VInt e) -> plain_claims p -> now < e ->
  decode_token (encode_token p k) k now = Decoded p.
Proof.
  intros He [Hiat Hnbf]%plain_claims_early Hlt.
  rewrite decode_encode_token. unfold validate, validate_exp.
  rewrite Hiat, Hnbf, He. destruct (Z.leb_spec e now); [lia|done].
Qed.

Lemma decode_stale (p : dict) k e now :
  p !! "exp" = Some (VInt e) ->
  p !! "iat" = None -> p !! "nbf" = None -> e < now ->
  decode_token (encode_token p k) k now = ExpiredSignatureError.
Proof.
  intros He Hiat Hnbf Hlt.
  rewrite decode_encode_token. unfold validate, validate_exp.
  rewrite Hiat, Hnbf, He. destruct (Z.leb_spec e now); [done|lia].
Qed.

Lemma validate_past (p : dict) e now data :
  p !! "exp" = Some (VInt e) -> e < now -> validate p now <> Decoded data.
Proof.
  intros He Hlt. unfold validate.
  assert (validate_exp p now = ExpiredSignatureError) as Hexp.
  { unfold validate_exp. rewrite He.
    destruct (Z.leb_spec e now); [done|lia]. }
  destruct (p !! "iat") as [[| | |]|]; try done;
    destruct (p !! "nbf") as [[| |n|]|]; try done;
    try destruct (now <? n); by rewrite ?Hexp.
Qed.

Lemma decode_past (p : dict) k k' e now data :
  p !! "exp" = Some (VInt e) -> e < now ->
  decode_token (encode_token p k) k' now <> Decoded data.
Proof.
  intros He Hlt. rewrite decode_encode_token_under.
  destruct (decide _); [by apply (validate_past p e)|done].
Qed.

End RefJwtFacts.

#[global] Instance ref_jwt : JwtLib := {|
  jwt_encode := RefJwt.encode_token;
  jwt_decode := RefJwt.decode_token;
  jwt_compact := RefJwtFacts.encode_token_compact;
  jwt_decode_fresh := RefJwtFacts.decode_fresh;
  jwt_decode_stale := RefJwtFacts.decode_stale;
  jwt_decode_past := RefJwtFacts.decode_past
|}.

(** Sample requests: a token issued at time 1000, claims that expired at
    time 5, claims without an [id], and two sets of claims that expired at
    time 5 as well: the first is not valid before time 9999, the issue time
    of the second is no number. *)
Definition demo_token : string :=
  (generate_token (H := ref_jwt) "key" demo_isoformat 1000
     (VInt 1) (VStr "ann") (VStr "employer")).1.

Definition bearer (token : string) : gmap string string :=
  {[ "Authorization" := "Bearer " +:+ token ]}.


Definition anonymous_claims : dict :=
  {[ "username" := VStr "ann"; "role" := VStr "employer";
     "exp" := VInt 5000 ]}.



(** ** The gate *)

Section GateFacts.

Context `{JwtLib}.
Variable SECRET_KEY : string.
Variable isoformat : Z -> string.
Context {Args S R : Type}.
Implicit Types (f : view Args S R) (headers : gmap string string).

Lemma generate_token_encodes utcnow user_id username role :
  (generate_token SECRET_KEY isoformat utcnow user_id username role).1
  = jwt_encode (issued_payload utcnow user_id username role) SECRET_KEY.
Proof. reflexivity. Qed.

(** The expiry handed to the client is the one embedded in the token. *)
Lemma generate_token_expiry utcnow user_id username role :
  (generate_token SECRET_KEY isoformat utcnow user_id username role).2
  = isoformat (utcnow + hour)
  /\ issued_payload utcnow user_id username role !! "exp"
     = Some (VInt (utcnow + hour)).
Proof. split; reflexivity. Qed.

Lemma issued_plain utcnow user_id username role :
  plain_claims (issued_payload utcnow user_id username role).
Proof. unfold plain_claims, other_registered. repeat constructor. Qed.

Lemma current_user_of_issued utcnow user_id username role :
  current_user_of (issued_payload utcnow user_id username role)
  = inr {[ "id" := user_id; "username" := username; "role" := role ]}.
Proof. reflexivity. Qed.

(** A header of two parts whose first is [bearer] in some casing brings
    its second part to [jwt.decode]. *)
Lemma gate_decodes f headers now args st h scheme token :
  headers !! "Authorization" = Some h ->
  PyStr.split h = [scheme; token] -> PyStr.lower scheme = "bearer" ->
  token_required SECRET_KEY f headers now args st
  = match jwt_decode token SECRET_KEY now with
    | Decoded data =>
        match current_user_of data with
        | inr current_user =>
            let '(r, st') := f current_user args st in (Passed r, st')
        | inl e => (Uncaught e, st)
        end
    | ExpiredSignatureError => (Unauthorized "Token has expired!", st)
    | InvalidTokenError => (Unauthorized "Invalid token!", st)
    end.
Proof.
  intros Hh Hsplit Hs. unfold token_required. rewrite Hh.
  destruct (decide (h = EmptyString)) as [->|Hne]; [done|].
  rewrite Hsplit. by rewrite decide_True by done.
Qed.

(** [Bearer], a blank and a token of the library make such a header. *)
Lemma split_bearer_token p k :
  PyStr.split ("Bearer " +:+ jwt_encode p k) = ["Bearer"; jwt_encode p k].
Proof.
  destruct (jwt_compact p k) as [Hne Hsolid].
  by apply PyStrFacts.split_bearer.
Qed.

(** C1. A token made by [generate_token], presented as [Bearer <token>]
    before its expiry of one hour and checked under the same key, passes
    the gate, and the wrapped function receives an identity with the
    very id, username and role the token was made for. *)
Theorem token_round_trip f headers utcnow now args st
    user_id username role :
  headers !! "Authorization"
    = Some ("Bearer "
            +:+ (generate_token SECRET_KEY isoformat utcnow
                   user_id username role).1) ->
  now < utcnow + hour ->
  token_required SECRET_KEY f headers now args st
  = (let '(r, st') :=
       f {[ "id" := user_id; "username" := username; "role" := role ]}
         args st in
     (Passed r, st')).
Proof.
  intros Hh Hnow. rewrite generate_token_encodes in Hh.
  rewrite (gate_decodes _ _ _ _ _ _ _ _ Hh (split_bearer_token _ _)
             eq_refl).
  rewrite (jwt_decode_fresh _ _ (utcnow + hour) now);
    [|done|apply issued_plain|done].
  by rewrite current_user_of_issued.
Qed.

(** C2. The gate answers a request with a missing header, a malformed
    header, an expired token or an invalid token with the matching 401
    response and leaves the state as it was, whatever the wrapped function
    is, so that function has not run; when the token decodes to claims with
    the three keys, the wrapped function runs on the identity as its first
    argument, and its result and state are handed on. *)
Theorem gate_short_circuit f headers now args st :
  ((headers !! "Authorization" = None
    \/ headers !! "Authorization" = Some EmptyString) ->
   token_required SECRET_KEY f headers now args st
   = (Unauthorized "Authorization header is missing!", st))
  /\ (forall h,
        headers !! "Authorization" = Some h -> h <> EmptyString ->
        malformed h ->
        token_required SECRET_KEY f headers now args st
        = (Unauthorized "Invalid token format!", st))
  /\ (forall h scheme token,
        headers !! "Authorization" = Some h ->
        PyStr.split h = [scheme; token] ->
        PyStr.lower scheme = "bearer" ->
        (jwt_decode token SECRET_KEY now = ExpiredSignatureError ->
         token_required SECRET_KEY f headers now args st
         = (Unauthorized "Token has expired!", st))
        /\ (jwt_decode token SECRET_KEY now = InvalidTokenError ->
            token_required SECRET_KEY f headers now args st
            = (Unauthorized "Invalid token!", st))
        /\ (forall data i u r,
              jwt_decode token SECRET_KEY now = Decoded data ->
              data !! "id" = Some i -> data !! "username" = Some u ->
              data !! "role" = Some r ->
              token_required SECRET_KEY f headers now args st
              = (let '(res, st') :=
                   f {[ "id" := i; "username" := u; "role" := r ]}
                     args st in
                 (Passed res, st')))).
Proof.
  unfold token_required. split; [|split].
  - intros [-> | ->]; [done|]. by rewrite decide_True by done.
  - intros h -> Hne [Hlen | Hscheme]; rewrite decide_False by done.
    + destruct (PyStr.split h) as [|a [|b [|c l]]]; simpl in *; done.
    + destruct (PyStr.split h) as [|a [|b [|c l]]]; simpl in *; try done.
      destruct (decide (PyStr.lower a = "bearer")) as [E|]; [|done].
      by rewrite E in Hscheme.
  - intros h scheme token -> Hsplit Hs.
    destruct (decide (h = EmptyString)) as [->|Hne]; [done|].
    rewrite Hsplit. rewrite decide_True by done.
    split; [|split].
    + by intros ->.
    + by intros ->.
    + intros data i u r -> Hi Hu Hr. unfold current_user_of.
      by rewrite Hi, Hu, Hr.
Qed.


(** C10. When a token decodes, so is well signed and not expired, but
    its claims lack [id], [username] or [role], the gate answers neither
    with a 401 response nor by running the wrapped function: the
    [KeyError] of the first missing key escapes, and the state is as it
    was. *)
Theorem missing_claim_escapes f headers now args st h scheme token data :
  headers !! "Authorization" = Some h ->
  PyStr.split h = [scheme; token] -> PyStr.lower scheme = "bearer" ->
  jwt_decode token SECRET_KEY now = Decoded data ->
  (data !! "id" = None \/ data !! "username" = None
   \/ data !! "role" = None) ->
  exists key,
    key ∈ ["id"; "username"; "role"] /\ data !! key = None
    /\ token_required SECRET_KEY f headers now args st
       = (Uncaught (KeyError key), st).
Proof.
  intros Hh Hsplit Hs Hd Hmiss.
  rewrite (gate_decodes _ _ _ _ _ _ _ _ Hh Hsplit Hs), Hd.
  unfold current_user_of.
  destruct (data !! "id") as [i|] eqn:Hi.
  - destruct (data !! "username") as [u|] eqn:Hu.
    + destruct (data !! "role") as [r|] eqn:Hr.
      * by destruct Hmiss as [?|[?|?]].
      * exists "role". repeat split; [rewrite !elem_of_cons; auto|done].
    + exists "username". repeat split; [rewrite !elem_of_cons; auto|done].
  - exists "id". repeat split; [rewrite !elem_of_cons; auto|done].
Qed.

End GateFacts.

(** The gate run on the sample token with the reference codec. *)
Example run_gate :
  token_required (H := ref_jwt) "key" demo_view (bearer demo_token) 2000 tt
    0%nat
  = (Passed {[ "id" := VInt 1; "username" := VStr "ann";
               "role" := VStr "employer" ]}, 1%nat).
Proof. vm_compute. reflexivity. Qed.

(** One second after the hour the same token is refused. *)
Example run_gate_late :
  token_required (H := ref_jwt) "key" demo_view (bearer demo_token) 4601 tt
    0%nat
  = (Unauthorized "Token has expired!", 0%nat).
Proof. vm_compute. reflexivity. Qed.

(** Under another key it is refused as invalid. *)
Example run_gate_other_key :
  token_required (H := ref_jwt) "other" demo_view (bearer demo_token) 2000
    tt 0%nat
  = (Unauthorized "Invalid token!", 0%nat).
Proof. vm_compute. reflexivity. Qed.

(** C1 at the sample token, checked 1000 seconds after issue. *)
Lemma token_round_trip_witness :
  token_required (H := ref_jwt) "key" demo_view (bearer demo_token) 2000 tt
    0%nat
  = (let '(r, st') :=
       demo_view
         {[ "id" := VInt 1; "username" := VStr "ann";
            "role" := VStr "employer" ]} tt 0%nat in
     (Passed r, st')).
Proof.
  apply (token_round_trip (H := ref_jwt) "key" demo_isoformat demo_view
           (bearer demo_token) 1000 2000 tt 0%nat
           (VInt 1) (VStr "ann") (VStr "employer")).
  - apply lookup_singleton_eq.
  - reflexivity.
Defined.

(** C2 at a request without headers. *)
Lemma gate_short_circuit_witness :
  token_required (H := ref_jwt) "key" demo_view ∅ 2000 tt 0%nat
  = (Unauthorized "Authorization header is missing!", 0%nat).
Proof.
  apply (gate_short_circuit (H := ref_jwt) "key" demo_view ∅ 2000 tt 0%nat).
  left. reflexivity.
Defined.



(** C10 at signed, unexpired claims without an [id]. *)
Lemma missing_claim_escapes_witness :
  exists key,
    key ∈ ["id"; "username"; "role"] /\ anonymous_claims !! key = None
    /\ token_required (H := ref_jwt) "key" demo_view
         (bearer (jwt_encode anonymous_claims "key")) 2000 tt 0%nat
       = (Uncaught (KeyError key), 0%nat).
Proof.
  apply (missing_claim_escapes (H := ref_jwt) "key" demo_view
           (bearer (jwt_encode anonymous_claims "key")) 2000 tt 0%nat
           ("Bearer " +:+ jwt_encode anonymous_claims "key")
           "Bearer" (jwt_encode anonymous_claims "key") anonymous_claims).
  - apply lookup_singleton_eq.
  - apply PyStrFacts.split_bearer; apply (jwt_compact anonymous_claims "key").
  - reflexivity.
  - apply (jwt_decode_fresh anonymous_claims "key" 5000 2000).
    + reflexivity.
    + unfold plain_claims, other_registered. repeat constructor.
    + reflexivity.
  - left. reflexivity.
Defined.

(** ** Sessions *)

Lemma lookup_fresh (ss : list Session) s : (ss ++ [s]) !! length ss = Some s.
Proof. by rewrite list_lookup_middle. Qed.

Lemma alter_fresh (ss : list Session) s g :
  alter g (length ss) (ss ++ [s]) = ss ++ [g s].
Proof. induction ss as [|x ss IH]; simpl; [done|]. by f_equal. Qed.

Lemma open_sessions_snoc d ss fs s :
  open_sessions {| db := d; sessions := ss ++ [s]; faults := fs |}
  = open_sessions {| db := d; sessions := ss; faults := fs |}
    ++ (if is_open s then [s] else []).
Proof.
  unfold open_sessions. simpl. rewrite filter_app. f_equal.
  rewrite filter_cons.
  destruct (is_open s); by rewrite ?decide_True, ?decide_False by done.
Qed.

(** A session that is left open is one more open session. *)
Lemma open_after_leak d d' ss fs fs' s :
  is_open s = true ->
  length (open_sessions {| db := d'; sessions := ss ++ [s]; faults := fs' |})
  = S (length (open_sessions {| db := d; sessions := ss; faults := fs |})).
Proof.
  intros Hs. rewrite open_sessions_snoc, Hs, length_app. simpl.
  unfold open_sessions. simpl. lia.
Qed.

(** A session that is closed is none. *)
Lemma open_after_close d d' ss fs fs' st :
  open_sessions
    {| db := d'; sessions := ss ++ [{| pending := st; is_open := false |}];
       faults := fs' |}
  = open_sessions {| db := d; sessions := ss; faults := fs |}.
Proof. rewrite open_sessions_snoc. simpl. by rewrite app_nil_r. Qed.

(** Unfold the monad and the session layer, and resolve what is done
    through the handle of the session just made. *)
Ltac exec :=
  unfold try_finally, try_except, bind, ret, raise, getitem,
    Sess.SessionLocal, Sess.get, Sess.query, Sess.all, Sess.first, Sess.one,
    Sess.round_trip, Sess.rows, Sess.commit, Sess.rollback, Sess.close,
    Sess.add_job, Sess.add_application, Sess.put_application,
    Sess.delete_job, Sess.change;
  simpl;
  repeat first [rewrite lookup_fresh | rewrite alter_fresh];
  simpl.

Lemma elem_of_select {T} (table : Store -> gmap Z T) cond st k (x : T) :
  (k, x) ∈ select table cond st <-> table st !! k = Some x /\ cond k x = true.
Proof.
  unfold select. rewrite list_elem_of_filter, elem_of_map_to_list. simpl.
  tauto.
Qed.

(** Two values are the same key when they are bound alike. *)
Lemma same_key_true column v :
  same_key column v = true <-> bound column = bound v.
Proof. apply bool_decide_eq_true. Qed.

Lemma same_key_refl v : same_key v v = true.
Proof. by apply same_key_true. Qed.

(** [True] is the key 1 and [False] the key 0. *)
Example same_key_truth :
  same_key (VInt 1) (VBool true) = true
  /\ same_key (VBool false) (VInt 0) = true
  /\ same_key (VInt 1) (VBool false) = false
  /\ same_key (VInt 2) (VBool true) = false.
Proof. repeat split. Qed.

(** A condition matters only through the rows it accepts. *)
Lemma select_ext {T} (table : Store -> gmap Z T) cond cond' st :
  (forall k x, cond k x = cond' k x) ->
  select table cond st = select table cond' st.
Proof.
  intros Hext. unfold select. apply list_filter_iff. intros [k x]. simpl.
  by rewrite Hext.
Qed.

(** The pair of a stored application selects what every pair bound like it
    selects. *)
Lemma by_pair_bound uid jid uid' jid' st :
  bound uid = bound uid' -> bound jid = bound jid' ->
  select applications (by_pair uid jid) st
  = select applications (by_pair uid' jid') st.
Proof.
  intros Hu Hj. apply select_ext. intros k a.
  unfold by_pair, same_key. by rewrite Hu, Hj.
Qed.

(** ** Users *)

Section UserFacts.

Context `{Models}.

(** C3. [login_user] returns [None] when no user has the email, when one
    user has it and the password check fails, and when several users have
    it: the caller gets the same value in the three cases, whether or not
    the store fails. *)
Theorem login_indistinguishable w email password :
  let found := select users (by_email email) (db w) in
  (found = []
   \/ (exists user, found = [user]
                    /\ check_password user.2 password = false)
   \/ (1 < length found)%nat) ->
  (login_user email password w).1 = Return None.
Proof.
  intros found Hcase. subst found. destruct w as [d ss fs]. simpl in *.
  unfold login_user. exec.
  destruct fs as [|[] fs]; exec; try done.
  - destruct Hcase as [-> | [(u & -> & Hp) | Hlen]]; [done|by rewrite Hp|].
    destruct (select users (by_email email) d) as [|a [|b l]];
      simpl in *; [lia|lia|done].
  - destruct Hcase as [-> | [(u & -> & Hp) | Hlen]]; [done|by rewrite Hp|].
    destruct (select users (by_email email) d) as [|a [|b l]];
      simpl in *; [lia|lia|done].
Qed.

(** With the one matching user and the right password the user comes
    back, so [None] is not all that [login_user] returns. *)
Lemma login_succeeds w email password user :
  select users (by_email email) (db w) = [user] ->
  check_password user.2 password = true ->
  head (faults w) <> Some true ->
  (login_user email password w).1 = Return (Some user).
Proof.
  intros Hsel Hp Hok. destruct w as [d ss fs]. simpl in *.
  unfold login_user. exec.
  destruct fs as [|[] fs]; simpl in Hok; [|done|]; exec;
    by rewrite Hsel, Hp.
Qed.

Lemma Job_of_pure data w : (Job_of data w).2 = w.
Proof.
  unfold Job_of, bind, getitem, ret, raise.
  repeat (destruct (data !! _); simpl; try done).
Qed.

(** C7. The sessions are not all released: a call of [login_user] or of
    [get_all_users] leaves one more open session in the world on every
    path, and so does a call of [create_job] once [Job(...)] is built. *)
Theorem sessions_left_open w email password data :
  length (open_sessions (login_user email password w).2)
    = S (length (open_sessions w))
  /\ length (open_sessions (get_all_users w).2)
     = S (length (open_sessions w))
  /\ (forall new_job,
        (Job_of data w).1 = Return new_job ->
        length (open_sessions (create_job data w).2)
        = S (length (open_sessions w))).
Proof.
  destruct w as [d ss fs]. split; [|split].
  - unfold login_user. exec.
    destruct fs as [|[] fs]; exec; try by apply open_after_leak.
    + destruct (select users (by_email email) d) as [|u [|u' l]]; exec;
        try destruct (check_password _ _); by apply open_after_leak.
    + destruct (select users (by_email email) d) as [|u [|u' l]]; exec;
        try destruct (check_password _ _); by apply open_after_leak.
  - unfold get_all_users. exec.
    destruct fs as [|[] fs]; exec; by apply open_after_leak.
  - intros new_job Hj.
    pose proof (Job_of_pure data {| db := d; sessions := ss; faults := fs |})
      as Hp.
    unfold create_job.
    destruct (Job_of data _) as [[j|e] w1]; simpl in *; subst w1; [|done].
    exec. destruct fs as [|[] fs]; exec; by apply open_after_leak.
Qed.

(** When [data] lacks a key of the job, the handler of [create_job] finds
    no [session] and raises in its turn. *)
Lemma create_job_unbound_session data w e :
  (Job_of data w).1 = Raise e ->
  (create_job data w).1 = Raise (UnboundLocalError "session").
Proof.
  intros He. unfold create_job.
  by destruct (Job_of data w) as [[j|e'] w1].
Qed.

End UserFacts.

(** ** Jobs *)

Lemma lookup_foldl_delete {T} (rs : list (Z * T)) : forall (m : gmap Z T) k,
  foldl (fun m r => delete r.1 m) m rs !! k
  = if decide (k ∈ rs.*1) then None else m !! k.
Proof.
  induction rs as [|r rs IH]; intros m k; simpl.
  - destruct (decide (k ∈ [])) as [Hin|]; [|done].
    by apply elem_of_nil in Hin.
  - rewrite IH. change (list_fmap (Z * T)%type Z fst rs) with (rs.*1).
    destruct (decide (k ∈ r.1 :: rs.*1)) as [Hin'|Hout'].
    + destruct (decide (k ∈ rs.*1)) as [Hin|Hout]; [done|].
      apply elem_of_cons in Hin' as [->|?]; [|done].
      apply lookup_delete_eq.
    + rewrite not_elem_of_cons in Hout'. destruct Hout' as [Hne Hout].
      rewrite decide_False by done. by apply lookup_delete_ne.
Qed.

(** Deleting the selected applications one by one leaves the applications
    of the other jobs. *)
Lemma delete_related job_id st :
  foldl (fun m r => delete r.1 m) (applications st)
        (select applications (by_job_id job_id) st)
  = filter (fun r => bound (Application.job_id r.2) <> VInt job_id)
           (applications st).
Proof.
  apply map_eq. intros k. rewrite lookup_foldl_delete.
  destruct (decide (k ∈ (select applications (by_job_id job_id) st).*1))
    as [Hin|Hout].
  - apply list_elem_of_fmap in Hin as ([k' a] & -> & Hin).
    apply elem_of_select in Hin as [Hk Hc]. simpl in *.
    symmetry. apply map_lookup_filter_None. right. intros a' Ha'.
    rewrite Hk in Ha'. injection Ha' as <-. simpl.
    unfold by_job_id in Hc. apply same_key_true in Hc. by intros ?.
  - destruct (applications st !! k) as [a|] eqn:Hk.
    + symmetry. apply map_lookup_filter_Some. split; [done|]. simpl.
      intros Hj. apply Hout. apply list_elem_of_fmap. exists (k, a).
      split; [done|]. apply elem_of_select. split; [done|].
      unfold by_job_id. by apply same_key_true.
    + symmetry. apply map_lookup_filter_None. by left.
Qed.

(** The loop of [delete_job] over the related applications. *)
Lemma for_each_delete rs : forall d ss s fs,
  for_each rs
    (fun application : Z * Application.t =>
       Sess.delete_application (length ss) application.1)
    {| db := d; sessions := ss ++ [s]; faults := fs |}
  = (Return tt,
     {| db := d;
        sessions :=
          ss ++ [Sess.on_pending
                   (Sess.with_applications
                      (fun m => foldl (fun m r => delete r.1 m) m rs)) s];
        faults := fs |}).
Proof.
  induction rs as [|r rs IH]; intros d ss s fs; simpl.
  - by destruct s as [[] ?].
  - unfold Sess.delete_application at 1. exec. by rewrite IH.
Qed.

(** After the cascade no application of the job and no such job is left. *)
Lemma cascade_clean job_id st :
  select applications (by_job_id job_id) (cascade job_id st) = []
  /\ jobs (cascade job_id st) !! job_id = None.
Proof.
  split; [|apply lookup_delete_eq].
  destruct (select applications _ _) as [|[k a] l] eqn:E; [done|].
  assert ((k, a) ∈ select applications (by_job_id job_id)
                     (cascade job_id st)) as Hin
    by (rewrite E; apply list_elem_of_here).
  apply elem_of_select in Hin as [Hk Hc]. simpl in Hk.
  apply map_lookup_filter_Some in Hk as [_ Hne]. simpl in Hne.
  unfold by_job_id in Hc. by apply same_key_true in Hc.
Qed.

(** Every run of [delete_job]: which of its three round trips fails, if
    any, decides between the cascade and no change. *)
Lemma delete_job_runs d ss fs job_id :
  let st' := cascade job_id d in
  let closed st := ss ++ [{| pending := st; is_open := false |}] in
  delete_job job_id {| db := d; sessions := ss; faults := fs |}
  = match jobs d !! job_id, fs with
    | _, true :: fs' =>
        (Return false, {| db := d; sessions := closed d; faults := fs' |})
    | None, _ =>
        (Return false,
         {| db := d; sessions := closed d; faults := tail fs |})
    | Some _, _ :: true :: fs' =>
        (Return false, {| db := d; sessions := closed d; faults := fs' |})
    | Some _, _ :: _ :: true :: fs' =>
        (Return false, {| db := d; sessions := closed d; faults := fs' |})
    | Some _, _ =>
        (Return true,
         {| db := st'; sessions := closed st'; faults := drop 3 fs |})
    end.
Proof.
  intros st' closed. subst st' closed. unfold delete_job, cascade. exec.
  destruct fs as [|[] fs]; exec; try done;
    destruct (jobs d !! job_id) eqn:Hj; exec; try done.
  - rewrite for_each_delete. exec.
    unfold Sess.on_pending, Sess.with_jobs, Sess.with_applications.
    simpl. by rewrite delete_related.
  - destruct fs as [|[] fs]; exec; try done;
      rewrite for_each_delete; exec; try done.
    + unfold Sess.on_pending, Sess.with_jobs, Sess.with_applications.
      simpl. by rewrite delete_related.
    + destruct fs as [|[] fs]; exec; try done;
      unfold Sess.on_pending, Sess.with_jobs, Sess.with_applications;
      simpl; by rewrite delete_related.
Qed.

(** C4. [delete_job] returns [False] and leaves the store as it was when
    no job has the id.  When a job has it, the call either returns [True]
    with the job and all applications of the job deleted together, after
    which a query for the applications of that job is empty, or it returns
    [False] with the store as it was; when the store does not fail it is
    the former. *)
Theorem delete_job_cascades w job_id :
  let r := delete_job job_id w in
  (jobs (db w) !! job_id = None ->
   r.1 = Return false /\ db r.2 = db w)
  /\ (is_Some (jobs (db w) !! job_id) ->
      (r.1 = Return true /\ db r.2 = cascade job_id (db w)
       /\ select applications (by_job_id job_id) (db r.2) = []
       /\ jobs (db r.2) !! job_id = None)
      \/ (r.1 = Return false /\ db r.2 = db w))
  /\ (is_Some (jobs (db w) !! job_id) -> reliable w ->
      r.1 = Return true /\ db r.2 = cascade job_id (db w)).
Proof.
  destruct w as [d ss fs]. simpl. rewrite delete_job_runs.
  destruct (cascade_clean job_id d) as [Hq Hj].
  split; [|split].
  - intros ->. by destruct fs as [|[] ?].
  - intros [j ->].
    destruct fs as [|[] [|[] [|[] fs]]]; simpl; auto.
  - intros [j ->] Hr. unfold reliable in Hr. simpl in Hr.
    destruct fs as [|b1 fs]; [done|].
    apply Forall_cons in Hr as [-> Hr].
    destruct fs as [|b2 fs]; [done|].
    apply Forall_cons in Hr as [-> Hr].
    destruct fs as [|b3 fs]; [done|].
    by apply Forall_cons in Hr as [-> Hr].
Qed.

(** [delete_job] closes the session it made, on every path. *)
Lemma delete_job_closes w job_id :
  open_sessions (delete_job job_id w).2 = open_sessions w.
Proof.
  destruct w as [d ss fs]. rewrite delete_job_runs.
  destruct (jobs d !! job_id); destruct fs as [|[] [|[] [|[] fs]]];
    simpl; apply open_after_close.
Qed.

(** ** Applications *)

(** The key of a new row is not in use. *)
Lemma next_id_fresh {T} (m : gmap Z T) : m !! Sess.next_id m = None.
Proof.
  assert (forall k, is_Some (m !! k) ->
            k <= map_fold (fun k _ acc => Z.max k acc) 0 m) as Hmax.
  { apply (map_fold_weak_ind
             (fun r (m : gmap Z T) => forall k, is_Some (m !! k) -> k <= r)).
    - intros k [x Hx]. by rewrite lookup_empty in Hx.
    - intros i x m' r Hi IH k Hk.
      destruct (decide (i = k)) as [->|Hne]; [lia|].
      rewrite lookup_insert_ne in Hk by done. specialize (IH k Hk). lia. }
  unfold Sess.next_id.
  destruct (m !! (1 + map_fold (fun k _ acc => Z.max k acc) 0 m)) eqn:E;
    [|done].
  assert (1 + map_fold (fun k (_ : T) acc => Z.max k acc) 0 m
          <= map_fold (fun k _ acc => Z.max k acc) 0 m) as Hle
    by (apply Hmax; rewrite E; eauto).
  lia.
Qed.

(** The rows selected after one more row is added. *)
Lemma select_insert_length (cond : Z -> Application.t -> bool) st id a :
  applications st !! id = None ->
  length (select applications cond
            (Sess.with_applications (insert id a) st))
  = ((if cond id a then 1 else 0)
     + length (select applications cond st))%nat.
Proof.
  intros Hid. unfold select. simpl.
  rewrite (Permutation_length
             (filter_Permutation _ _ _ (map_to_list_insert _ id a Hid))).
  rewrite filter_cons. simpl.
  destruct (cond id a); simpl;
    by rewrite ?decide_True, ?decide_False by done.
Qed.

Section ApplicationFacts.

Context `{Models}.

(** C5. When the store already holds an application for the pair of user
    and job that [data] carries, [create_application] raises its
    [ValueError], the typed error for a duplicate, commits nothing and
    leaves nothing pending; in a store that obeys the invariant of one
    application for each pair there is still exactly one for this pair.
    The pair is the same as the store compares it, so an application of
    user 1 is found for a [user_id] of [True] as well. *)
Theorem duplicate_application_rejected w (data : dict) uid jid :
  data !! "user_id" = Some uid -> data !! "job_id" = Some jid ->
  head (faults w) <> Some true ->
  (exists k a, applications (db w) !! k = Some a
               /\ same_key (Application.user_id a) uid = true
               /\ same_key (Application.job_id a) jid = true) ->
  let r := create_application data w in
  r.1 = Raise (ValueError "You have already applied for this job")
  /\ db r.2 = db w
  /\ sessions r.2 = sessions w ++ [{| pending := db w; is_open := true |}]
  /\ (unique_applications (db w) ->
      length (select applications (by_pair uid jid) (db r.2)) = 1%nat).
Proof.
  intros Hu Hj Hok (k & a & Hk & Ha1 & Ha2). destruct w as [d ss fs].
  simpl in *.
  assert ((k, a) ∈ select applications (by_pair uid jid) d) as Hin.
  { apply elem_of_select. split; [done|]. unfold by_pair.
    by rewrite Ha1, Ha2. }
  unfold create_application. exec. rewrite Hu, Hj. exec.
  assert (exists x, head (select applications (by_pair uid jid) d) = Some x)
    as [x Hx].
  { destruct (select applications (by_pair uid jid) d) as [|x l];
      [by apply elem_of_nil in Hin|by exists x]. }
  assert (unique_applications d ->
          length (select applications (by_pair uid jid) d) = 1%nat)
    as Hone.
  { intros Hun. specialize (Hun uid jid).
    destruct (select applications (by_pair uid jid) d); simpl in *;
      [done|lia]. }
  destruct fs as [|[] fs]; simpl in Hok; [|done|]; exec; by rewrite Hx.
Qed.

(** A call of [create_application] that returns has added one row, for a
    pair of user and job that had no application. *)
Lemma create_application_inserts w (data : dict) id a :
  (create_application data w).1 = Return (id, a) ->
  let st := db w in
  db (create_application data w).2
    = Sess.with_applications (insert id a) st
  /\ applications st !! id = None
  /\ select applications
       (by_pair (Application.user_id a) (Application.job_id a)) st = [].
Proof.
  destruct w as [d ss fs]. simpl. unfold create_application. exec.
  destruct (data !! "user_id") as [uid|] eqn:Hu; exec; [|done].
  destruct (data !! "job_id") as [jid|] eqn:Hj; exec; [|done].
  assert (head (select applications (by_pair uid jid) d) = None ->
          select applications (by_pair uid jid) d = []) as Hnil
    by (by destruct (select applications (by_pair uid jid) d)).
  destruct fs as [|[] fs]; exec; try done;
    (destruct (head (select applications (by_pair uid jid) d)) eqn:Hh;
       [done|]);
    repeat (match goal with
            | |- context [data !! ?k] =>
                destruct (data !! k) eqn:?; simpl; [|done]
            end);
    exec.
  - intros [= <- <-]. simpl. repeat split; auto using next_id_fresh.
  - destruct fs as [|[] fs]; exec; try done;
      intros [= <- <-]; simpl; repeat split; auto using next_id_fresh.
Qed.

(** A call of [create_application] that raises has committed nothing. *)
Lemma create_application_raises w (data : dict) e :
  (create_application data w).1 = Raise e ->
  db (create_application data w).2 = db w.
Proof.
  destruct w as [d ss fs]. simpl. unfold create_application. exec.
  destruct (data !! "user_id") as [uid|] eqn:Hu; exec; [|done].
  destruct (data !! "job_id") as [jid|] eqn:Hj; exec; [|done].
  destruct fs as [|[] fs]; exec; try done;
    (destruct (head (select applications (by_pair uid jid) d)) eqn:Hh;
       [done|]);
    repeat (match goal with
            | |- context [data !! ?k] =>
                destruct (data !! k) eqn:?; simpl; [|done]
            end);
    exec; try done.
  destruct fs as [|[] fs]; exec; done.
Qed.

(** The check before the insert keeps the invariant of the data model:
    in a store with at most one application for each pair, a call of
    [create_application] leaves such a store, whatever it returns or
    raises. *)
Lemma create_application_keeps_unique w (data : dict) :
  unique_applications (db w) ->
  unique_applications (db (create_application data w).2).
Proof.
  intros Hun.
  destruct (create_application data w).1 as [[id a]|e] eqn:E.
  - destruct (create_application_inserts w data id a E) as (-> & Hid & Hnil).
    intros uid jid. rewrite select_insert_length by done.
    destruct (by_pair uid jid id a) eqn:Hc; [|apply Hun].
    unfold by_pair in Hc. apply andb_prop in Hc as [Hc1 Hc2].
    apply same_key_true in Hc1, Hc2.
    by rewrite (by_pair_bound uid jid _ _ _ (eq_sym Hc1) (eq_sym Hc2)), Hnil.
  - by rewrite (create_application_raises w data e E).
Qed.

(** C6. For an id that no application has, [update_application_status]
    returns [None] and the committed store is the one from before the
    call, whatever [data] holds and whether or not the store fails. *)
Theorem update_status_missing_noop w application_id data :
  applications (db w) !! application_id = None ->
  (update_application_status application_id data w).1 = Return None
  /\ db (update_application_status application_id data w).2 = db w.
Proof.
  intros Hn. destruct w as [d ss fs]. simpl in *.
  unfold update_application_status.
  exec. destruct fs as [|[] fs]; exec; rewrite ?Hn; done.
Qed.

(** C9. For an application that exists and [data] without a [status] key,
    [update_application_status] still commits when the store does not
    fail, and returns the projection of the row as it was before the call;
    the committed store is unchanged. *)
Theorem update_status_without_status w application_id a (data : dict) :
  applications (db w) !! application_id = Some a ->
  data !! "status" = None ->
  reliable w ->
  (update_application_status application_id data w).1
    = Return (Some (application_to_dict application_id a))
  /\ db (update_application_status application_id data w).2 = db w.
Proof.
  intros Ha Hd Hr. destruct w as [d ss fs]. unfold reliable in Hr.
  simpl in *.
  unfold update_application_status. exec.
  destruct fs as [|b1 fs]; exec; rewrite ?Ha, ?Hd; exec; [done|].
  apply Forall_cons in Hr as [-> Hr]. exec. rewrite ?Ha, ?Hd. exec.
  destruct fs as [|b2 fs]; exec; [done|].
  apply Forall_cons in Hr as [-> Hr]. by exec.
Qed.

(** With a [status] in [data] the row gets it and the others stay. *)
Lemma update_status_sets_status w application_id a (data : dict) v :
  applications (db w) !! application_id = Some a ->
  data !! "status" = Some v ->
  reliable w ->
  (update_application_status application_id data w).1
    = Return (Some (application_to_dict application_id
                      (Application.set_status v a)))
  /\ applications (db (update_application_status application_id data w).2)
     = <[application_id := Application.set_status v a]>
         (applications (db w)).
Proof.
  intros Ha Hd Hr. destruct w as [d ss fs]. unfold reliable in Hr.
  simpl in *.
  unfold update_application_status. exec.
  destruct fs as [|b1 fs]; exec; rewrite ?Ha, ?Hd; exec; [done|].
  apply Forall_cons in Hr as [-> Hr]. exec. rewrite ?Ha, ?Hd. exec.
  destruct fs as [|b2 fs]; exec; [done|].
  apply Forall_cons in Hr as [-> Hr]. by exec.
Qed.

(** [update_application_status] closes the session it made, on every
    path. *)
Lemma update_application_status_closes w application_id data :
  open_sessions (update_application_status application_id data w).2
  = open_sessions w.
Proof.
  destruct w as [d ss fs]. unfold update_application_status. exec.
  destruct fs as [|[] fs]; exec; try apply open_after_close;
    destruct (applications d !! application_id); exec;
    try apply open_after_close;
    destruct (data !! "status"); exec; try apply open_after_close;
    destruct fs as [|[] fs]; exec; apply open_after_close.
Qed.

End ApplicationFacts.

(** ** The operations run on the sample world *)

Example run_login_ok :
  (login_user (H := demo_models) (VStr "ann@example.org") (VStr "s3cret")
     demo_world).1
  = Return (Some (1, demo_user)).
Proof. vm_compute. reflexivity. Qed.

Example run_delete_job :
  let r := delete_job 7 demo_world in
  r.1 = Return true
  /\ applications (db r.2) = {[ 4 := demo_application 8 ]}
  /\ jobs (db r.2) = {[ 8 := demo_job ]}
  /\ open_sessions r.2 = [].
Proof. vm_compute. done. Qed.

(** The commit fails: neither the job nor its application is deleted. *)
Example run_delete_job_failing :
  let r := delete_job 7 demo_world_failing in
  r.1 = Return false /\ db r.2 = demo_store.
Proof. vm_compute. done. Qed.

(** A failed login leaves its session open. *)
Example run_login_leak :
  let r := login_user (H := demo_models) (VStr "ann@example.org")
             (VStr "guess") demo_world in
  r.1 = Return None
  /\ open_sessions r.2 = [{| pending := demo_store; is_open := true |}].
Proof. vm_compute. done. Qed.

Example run_update_status :
  let data : dict := {[ "status" := VStr "accepted" ]} in
  let r := update_application_status (H := demo_models) 3 data demo_world in
  r.1 = Return (Some {[ "id" := VInt 3; "job_id" := VInt 7;
                        "user_id" := VInt 1;
                        "status" := VStr "accepted" ]})
  /\ Application.status <$> applications (db r.2) !! 3
     = Some (VStr "accepted").
Proof. vm_compute. done. Qed.

(** User 1 has applied for job 7: a second application with [True] for
    the user is the same pair to the store and is refused. *)
Example run_duplicate_truth :
  let data : dict := {[ "user_id" := VBool true; "job_id" := VInt 7 ]} in
  let r := create_application data demo_world in
  r.1 = Raise (ValueError "You have already applied for this job")
  /\ db r.2 = demo_store.
Proof. vm_compute. done. Qed.

(** C3 at the sample world: a wrong password and an unknown email. *)
Lemma login_indistinguishable_witness :
  (login_user (H := demo_models) (VStr "ann@example.org") (VStr "guess")
     demo_world).1 = Return None
  /\ (login_user (H := demo_models) (VStr "bob@example.org") (VStr "guess")
        demo_world).1 = Return None.
Proof.
  split.
  - apply (login_indistinguishable (H := demo_models) demo_world
             (VStr "ann@example.org") (VStr "guess")).
    right. left. exists (1, demo_user). split; reflexivity.
  - apply (login_indistinguishable (H := demo_models) demo_world
             (VStr "bob@example.org") (VStr "guess")).
    left. reflexivity.
Defined.

(** C4 at job 7 of the sample world. *)
Lemma delete_job_cascades_witness :
  (delete_job 7 demo_world).1 = Return true
  /\ db (delete_job 7 demo_world).2 = cascade 7 (db demo_world).
Proof.
  apply (delete_job_cascades demo_world 7).
  - exists demo_job. reflexivity.
  - constructor.
Defined.

(** C5 at a second application of user 1 for job 7. *)
Lemma duplicate_application_rejected_witness :
  let data : dict := {[ "user_id" := VInt 1; "job_id" := VInt 7 ]} in
  (create_application data demo_world).1
    = Raise (ValueError "You have already applied for this job")
  /\ db (create_application data demo_world).2 = db demo_world.
Proof.
  intros data.
  destruct (duplicate_application_rejected demo_world data (VInt 1) (VInt 7))
    as (Hr & Hdb & _).
  - reflexivity.
  - reflexivity.
  - discriminate.
  - exists 3, (demo_application 7). repeat split; reflexivity.
  - split; assumption.
Defined.

(** C6 at the id 99, which no application has. *)
Lemma update_status_missing_noop_witness :
  (update_application_status (H := demo_models) 99 ∅ demo_world).1
    = Return None
  /\ db (update_application_status (H := demo_models) 99 ∅ demo_world).2
     = db demo_world.
Proof.
  apply (update_status_missing_noop (H := demo_models) demo_world 99 ∅).
  reflexivity.
Defined.

(** C9 at application 3 and empty [data]. *)
Lemma update_status_without_status_witness :
  (update_application_status (H := demo_models) 3 ∅ demo_world).1
    = Return (Some (@application_to_dict demo_models 3 (demo_application 7)))
  /\ db (update_application_status (H := demo_models) 3 ∅ demo_world).2
     = db demo_world.
Proof.
  apply (update_status_without_status (H := demo_models) demo_world 3
           (demo_application 7) ∅).
  - reflexivity.
  - reflexivity.
  - constructor.
Defined.

(** * The rest of db_operations.py *)

(** ** Further parts of the model layer and of the session *)

(** Modelled from the spec: [validate_role_specific_fields] and
    [set_password] of [models/user.py], which is not among the sources.
    The first yields the text of the [ValueError] it raises, if it raises;
    the second stores the hash of the password in the user. *)
Class UserModel := {
  validate_role_specific_fields : User.t -> option string;
  set_password : value -> User.t -> User.t
}.

(** Assignments to the attributes of a loaded job. *)
Module JobSet.
Definition title (v : value) (j : Job.t) : Job.t :=
  {| Job.title := v; Job.description := Job.description j;
     Job.requirements := Job.requirements j;
     Job.employer_id := Job.employer_id j; Job.salary := Job.salary j;
     Job.location := Job.location j; Job.job_type := Job.job_type j;
     Job.application_deadline := Job.application_deadline j;
     Job.skills_required := Job.skills_required j;
     Job.preferred_qualifications := Job.preferred_qualifications j |}.
Definition description (v : value) (j : Job.t) : Job.t :=
  {| Job.title := Job.title j; Job.description := v;
     Job.requirements := Job.requirements j;
     Job.employer_id := Job.employer_id j; Job.salary := Job.salary j;
     Job.location := Job.location j; Job.job_type := Job.job_type j;
     Job.application_deadline := Job.application_deadline j;
     Job.skills_required := Job.skills_required j;
     Job.preferred_qualifications := Job.preferred_qualifications j |}.
Definition requirements (v : value) (j : Job.t) : Job.t :=
  {| Job.title := Job.title j; Job.description := Job.description j;
     Job.requirements := v;
     Job.employer_id := Job.employer_id j; Job.salary := Job.salary j;
     Job.location := Job.location j; Job.job_type := Job.job_type j;
     Job.application_deadline := Job.application_deadline j;
     Job.skills_required := Job.skills_required j;
     Job.preferred_qualifications := Job.preferred_qualifications j |}.
Definition salary (v : value) (j : Job.t) : Job.t :=
  {| Job.title := Job.title j; Job.description := Job.description j;
     Job.requirements := Job.requirements j;
     Job.employer_id := Job.employer_id j; Job.salary := v;
     Job.location := Job.location j; Job.job_type := Job.job_type j;
     Job.application_deadline := Job.application_deadline j;
     Job.skills_required := Job.skills_required j;
     Job.preferred_qualifications := Job.preferred_qualifications j |}.
Definition location (v : value) (j : Job.t) : Job.t :=
  {| Job.title := Job.title j; Job.description := Job.description j;
     Job.requirements := Job.requirements j;
     Job.employer_id := Job.employer_id j; Job.salary := Job.salary j;
     Job.location := v; Job.job_type := Job.job_type j;
     Job.application_deadline := Job.application_deadline j;
     Job.skills_required := Job.skills_required j;
     Job.preferred_qualifications := Job.preferred_qualifications j |}.
Definition job_type (v : value) (j : Job.t) : Job.t :=
  {| Job.title := Job.title j; Job.description := Job.description j;
     Job.requirements := Job.requirements j;
     Job.employer_id := Job.employer_id j; Job.salary := Job.salary j;
     Job.location := Job.location j; Job.job_type := v;
     Job.application_deadline := Job.application_deadline j;
     Job.skills_required := Job.skills_required j;
     Job.preferred_qualifications := Job.preferred_qualifications j |}.
Definition application_deadline (v : value) (j : Job.t) : Job.t :=
  {| Job.title := Job.title j; Job.description := Job.description j;
     Job.requirements := Job.requirements j;
     Job.employer_id := Job.employer_id j; Job.salary := Job.salary j;
     Job.location := Job.location j; Job.job_type := Job.job_type j;
     Job.application_deadline := v;
     Job.skills_required := Job.skills_required j;
     Job.preferred_qualifications := Job.preferred_qualifications j |}.
Definition skills_required (v : value) (j : Job.t) : Job.t :=
  {| Job.title := Job.title j; Job.description := Job.description j;
     Job.requirements := Job.requirements j;
     Job.employer_id := Job.employer_id j; Job.salary := Job.salary j;
     Job.location := Job.location j; Job.job_type := Job.job_type j;
     Job.application_deadline := Job.application_deadline j;
     Job.skills_required := v;
     Job.preferred_qualifications := Job.preferred_qualifications j |}.
Definition preferred_qualifications (v : value) (j : Job.t) : Job.t :=
  {| Job.title := Job.title j; Job.description := Job.description j;
     Job.requirements := Job.requirements j;
     Job.employer_id := Job.employer_id j; Job.salary := Job.salary j;
     Job.location := Job.location j; Job.job_type := Job.job_type j;
     Job.application_deadline := Job.application_deadline j;
     Job.skills_required := Job.skills_required j;
     Job.preferred_qualifications := v |}.
End JobSet.

Module SessRows.

Definition with_users (g : gmap Z User.t -> gmap Z User.t) (st : Store)
  : Store :=
  {| users := g (users st); jobs := jobs st;
     applications := applications st |}.

(** [session.add(user)]; yields the key the row will have. *)
Definition add_user (session : nat) (u : User.t) : M Z :=
  let* st := Sess.rows session in
  let id := Sess.next_id (users st) in
  run Sess.change session (Sess.on_pending (with_users (insert id u))) in
  ret id.

(** An assignment to an attribute of a loaded job. *)
Definition put_job (session : nat) (id : Z) (j : Job.t) : M unit :=
  Sess.change session (Sess.on_pending (Sess.with_jobs (insert id j))).

End SessRows.

(** [filter_by(employer_id=user_id)] on applications. *)
Definition by_employer (user_id : value) (_ : Z) (a : Application.t)
  : bool :=
  same_key (Application.employer_id a) user_id.

(** [filter_by(user_id=user_id)] on applications. *)
Definition by_applicant (user_id : value) (_ : Z) (a : Application.t)
  : bool :=
  same_key (Application.user_id a) user_id.

(** [filter_by(employer_id=employer_id)] on jobs. *)
Definition by_job_employer (employer_id : value) (_ : Z) (j : Job.t)
  : bool :=
  same_key (Job.employer_id j) employer_id.

(** An id as requests and rows carry it: a whole number, a truth value,
    which counts as the number 0 or 1, or [None].  What a lookup by id
    does not find is stated for such ids. *)
Definition plain_key (v : value) : bool :=
  match v with
  | VStr _ => false
  | _ => true
  end.

(** The columns of a store that refer to a user or to a job hold such
    ids. *)
Definition plain_keys (st : Store) : Prop :=
  map_Forall
    (fun _ a =>
       plain_key (Application.user_id a) = true
       /\ plain_key (Application.job_id a) = true
       /\ plain_key (Application.employer_id a) = true)
    (applications st)
  /\ map_Forall (fun _ j => plain_key (Job.employer_id j) = true)
       (jobs st).

(** [except Exception as e: raise e]. *)
Definition reraise {A} (e : exn) : option (M A) := Some (raise e).

(** What a call of [register_user] ends in: it returns, or it raises one of
    the exceptions above, or it raises the [SQLAlchemyError] that it makes
    from the failure [cause] of the store, whose text is
    [Failed to register user: ] followed by the text of the cause. *)
Inductive register_outcome :=
  | Registered
  | Raises (e : exn)
  | Raises_failed_to_register (cause : exn).

Section MoreOperations.

Context `{Models} `{UserModel}.

(** [register_user(username, password, email, role, phone_number, address,
    first_name, last_name, company_name, website, contact_info)]. *)
Definition register_user
    (username password email role phone_number address
     first_name last_name company_name website contact_info : value)
    (w : World) : register_outcome * World :=
  let new_user :=
    {| User.username := username; User.email := email; User.role := role;
       User.phone_number := phone_number; User.address := address;
       User.first_name := first_name; User.last_name := last_name;
       User.company_name := company_name; User.website := website;
       User.contact_info := contact_info; User.password_hash := VNone |} in
  match validate_role_specific_fields new_user with
  | Some ve => (Raises (ValueError ("Validation error: " +:+ ve)), w)
  | None =>
      let new_user := set_password password new_user in
      match Sess.SessionLocal w with
      | (Raise e, w0) => (Raises e, w0)
      | (Return session, w0) =>
          match (run SessRows.add_user session new_user in
                 Sess.commit session) w0 with
          | (Return _, w1) => (Registered, (Sess.close session w1).2)
          | (Raise e, w1) =>
              if is_SQLAlchemyError e
              then (Raises_failed_to_register e,
                    (Sess.close session (Sess.rollback session w1).2).2)
              else (Raises e, (Sess.close session w1).2)
          end
      end
  end.

(** [get_user_by_id(id)]: the only handler is for [NoResultFound]. *)
Definition get_user_by_id (id : Z) : M (option User.t) :=
  try_except
    (let* session := Sess.SessionLocal in
     let* user := Sess.get users session id in
     ret user)
    (fun e => match e with
              | NoResultFound => Some (ret None)
              | _ => None
              end).

(** [get_all_jobs()]: [except Exception] catches everything. *)
Definition get_all_jobs : M (option (list dict)) :=
  try_except
    (let* session := Sess.SessionLocal in
     let* js := Sess.all (Sess.query jobs (fun _ _ => true) session) in
     let jobs_list := map (fun j => job_to_dict j.1 j.2) js in
     ret (Some jobs_list))
    (fun _ => Some (ret None)).

(** [get_job_by_id(job_id)]. *)
Definition get_job_by_id (job_id : Z) : M (option dict) :=
  try_except
    (let* session := Sess.SessionLocal in
     let* job := Sess.get jobs session job_id in
     match job with
     | Some j => ret (Some (job_to_dict job_id j))
     | None => ret None
     end)
    (fun e => if is_SQLAlchemyError e then Some (ret None) else None).

(** [get_jobs_by_employer_id(employer_id)].  [SessionLocal()] is the first
    statement of the [try] block and does not raise, so the [finally]
    block finds [session] bound. *)
Definition get_jobs_by_employer_id (employer_id : value)
  : M (option (list dict)) :=
  let* session := Sess.SessionLocal in
  try_finally
    (try_except
       (let* js :=
          Sess.all
            (Sess.query jobs (by_job_employer employer_id) session) in
        let jobs_list := map (fun j => job_to_dict j.1 j.2) js in
        ret (Some jobs_list))
       (fun e => if is_SQLAlchemyError e then Some (ret None) else None))
    (Sess.close session).

(** The nine assignments of [update_job], each reading its key of [data]
    and changing the loaded job, which the session tracks. *)
Definition assign (session : nat) (job_id : Z) (data : dict)
    (key : string) (set : value -> Job.t -> Job.t) (job : Job.t)
  : M Job.t :=
  let* v := getitem data key in
  let job := set v job in
  run SessRows.put_job session job_id job in
  ret job.

(** [update_job(job_id, data)]. *)
Definition update_job (job_id : Z) (data : dict) : M bool :=
  let* session := Sess.SessionLocal in
  try_except
    (let* job := Sess.get jobs session job_id in
     match job with
     | Some job =>
         let* job := assign session job_id data "title" JobSet.title job in
         let* job :=
           assign session job_id data "description" JobSet.description
             job in
         let* job :=
           assign session job_id data "requirements" JobSet.requirements
             job in
         let* job := assign session job_id data "salary" JobSet.salary job in
         let* job :=
           assign session job_id data "location" JobSet.location job in
         let* job :=
           assign session job_id data "job_type" JobSet.job_type job in
         let* job :=
           assign session job_id data "application_deadline"
             JobSet.application_deadline job in
         let* job :=
           assign session job_id data "skills_required"
             JobSet.skills_required job in
         let* job :=
           assign session job_id data "preferred_qualifications"
             JobSet.preferred_qualifications job in
         run Sess.commit session in
         ret true
     | None => ret false
     end)
    (fun e =>
       if is_SQLAlchemyError e
       then Some (run Sess.rollback session in ret false)
       else None).

(** [get_applications(user_id, role)]. *)
Definition get_applications (user_id role : value)
  : M (list (Z * Application.t)) :=
  let* session := Sess.SessionLocal in
  try_finally
    (try_except
       (if decide (role = VStr "employer")
        then Sess.all (Sess.query applications (by_employer user_id) session)
        else Sess.all
               (Sess.query applications (by_applicant user_id) session))
       reraise)
    (Sess.close session).

(** [get_application_by_id(application_id)]. *)
Definition get_application_by_id (application_id : Z)
  : M (option Application.t) :=
  let* session := Sess.SessionLocal in
  try_finally
    (try_except (Sess.get applications session application_id) reraise)
    (Sess.close session).

(** [delete_application(application_id)]: the lookup runs in a session of
    its own, the deletion in a second one. *)
Definition delete_application (application_id : Z) : M bool :=
  let* application := get_application_by_id application_id in
  match application with
  | None => ret false
  | Some _ =>
      let* session := Sess.SessionLocal in
      run Sess.delete_application session application_id in
      run Sess.commit session in
      ret true
  end.

End MoreOperations.

(** What the specification calls the full overwrite of a job: the nine
    fields come from [data], the owner stays. *)
Definition overwritten (j : Job.t)
    (title description requirements salary location job_type
     application_deadline skills_required preferred_qualifications : value)
  : Job.t :=
  {| Job.title := title; Job.description := description;
     Job.requirements := requirements;
     Job.employer_id := Job.employer_id j; Job.salary := salary;
     Job.location := location; Job.job_type := job_type;
     Job.application_deadline := application_deadline;
     Job.skills_required := skills_required;
     Job.preferred_qualifications := preferred_qualifications |}.

(** The keys of [data] that [update_job] reads, in the order it reads
    them. *)
Definition update_job_keys : list string :=
  ["title"; "description"; "requirements"; "salary"; "location";
   "job_type"; "application_deadline"; "skills_required";
   "preferred_qualifications"].

(** The keys of [data] that [Job(...)] of [create_job] reads. *)
Definition create_job_keys : list string :=
  ["title"; "description"; "requirements"; "employer_id"; "salary";
   "location"; "job_type"; "application_deadline"; "skills_required";
   "preferred_qualifications"].

(** An instance of the user model for the examples: an employer needs a
    company name, and the stored hash is the password itself, as
    [demo_models] checks it. *)
Definition demo_user_model : UserModel := {|
  validate_role_specific_fields u :=
    if decide (User.role u = VStr "employer")
    then (if decide (User.company_name u = VNone)
          then Some "company_name is required" else None)
    else None;
  set_password password u :=
    {| User.username := User.username u; User.email := User.email u;
       User.role := User.role u; User.phone_number := User.phone_number u;
       User.address := User.address u; User.first_name := User.first_name u;
       User.last_name := User.last_name u;
       User.company_name := User.company_name u;
       User.website := User.website u;
       User.contact_info := User.contact_info u;
       User.password_hash := password |}
|}.

(** The keys of [data] that [Application(...)] of [create_application]
    subscripts; [years_of_experience] is read with [get] and may be
    absent. *)
Definition create_application_keys : list string :=
  ["user_id"; "job_id"; "employer_id"; "resume"; "cover_letter"; "status";
   "name"; "school_name"; "portfolio"; "skills"].

(** [Application(...)] of [create_application], once every key is there. *)
Definition Application_of (data : dict) : Application.t :=
  {| Application.job_id := dict_get data "job_id";
     Application.employer_id := dict_get data "employer_id";
     Application.user_id := dict_get data "user_id";
     Application.years_of_experience := dict_get data "years_of_experience";
     Application.resume := dict_get data "resume";
     Application.cover_letter := dict_get data "cover_letter";
     Application.status := dict_get data "status";
     Application.name := dict_get data "name";
     Application.school_name := dict_get data "school_name";
     Application.portfolio := dict_get data "portfolio";
     Application.skills := dict_get data "skills" |}.

(** [Job(...)] of [create_job], once every key is there. *)
Definition Job_from (data : dict) : Job.t :=
  {| Job.title := dict_get data "title";
     Job.description := dict_get data "description";
     Job.requirements := dict_get data "requirements";
     Job.employer_id := dict_get data "employer_id";
     Job.salary := dict_get data "salary";
     Job.location := dict_get data "location";
     Job.job_type := dict_get data "job_type";
     Job.application_deadline := dict_get data "application_deadline";
     Job.skills_required := dict_get data "skills_required";
     Job.preferred_qualifications :=
       dict_get data "preferred_qualifications" |}.

(** [User(...)] of [register_user], before the password is set. *)
Definition User_of
    (username email role phone_number address first_name last_name
     company_name website contact_info : value) : User.t :=
  {| User.username := username; User.email := email; User.role := role;
     User.phone_number := phone_number; User.address := address;
     User.first_name := first_name; User.last_name := last_name;
     User.company_name := company_name; User.website := website;
     User.contact_info := contact_info; User.password_hash := VNone |}.

(** Every character of [s] is whitespace. *)
Fixpoint blank (s : string) : bool :=
  match s with
  | EmptyString => true
  | String c s' => PyStr.isspace c && blank s'
  end.

(** Sample data: a job posting, a changed posting without its salary, an
    application of user 5 for job 7, and a change of status. *)
Definition demo_job_data : dict :=
  {[ "title" := VStr "Analyst"; "description" := VStr "Reads data";
     "requirements" := VStr "SQL"; "employer_id" := VInt 2;
     "salary" := VInt 20; "location" := VStr "Bulawayo";
     "job_type" := VStr "part-time";
     "application_deadline" := VStr "2025-06-01";
     "skills_required" := VStr "SQL";
     "preferred_qualifications" := VStr "BSc" ]}.

Definition demo_job_data_short : dict := delete "salary" demo_job_data.

Definition demo_application_data : dict :=
  {[ "user_id" := VInt 5; "job_id" := VInt 7; "employer_id" := VInt 2;
     "resume" := VStr "cv5.pdf"; "cover_letter" := VStr "Dear";
     "status" := VStr "pending"; "name" := VStr "Bo Moyo";
     "school_name" := VStr "NUST"; "portfolio" := VNone;
     "skills" := VStr "SQL" ]}.

Definition demo_status_data : dict := {[ "status" := VStr "accepted" ]}.

(** * Properties of the further operations *)

(** As [exec], for the further operations. *)
Ltac exec2 :=
  unfold reraise, assign, SessRows.add_user, SessRows.put_job,
    Sess.delete_application;
  exec.

(** Case on the first round trips of a world in which none fails. *)
Ltac two_trips fs Hr :=
  unfold reliable in Hr; simpl in Hr;
  destruct fs as [|? [|? fs]];
  repeat (apply Forall_cons in Hr as [-> Hr]).

Ltac three_trips fs Hr :=
  unfold reliable in Hr; simpl in Hr;
  destruct fs as [|? [|? [|? fs]]];
  repeat (apply Forall_cons in Hr as [-> Hr]).

(** ** Queries *)

Lemma select_all {T} (table : Store -> gmap Z T) st :
  select table (fun _ _ => true) st = map_to_list (table st).
Proof.
  unfold select. induction (map_to_list (table st)) as [|x l IH]; [done|].
  rewrite filter_cons_True by done. by rewrite IH.
Qed.

(** The rows that a query selects are as many as the table has rows that
    meet the condition, and each of them is selected once. *)
Lemma map_to_list_filter {T} (P : Z * T -> Prop) `{forall r, Decision (P r)}
    (m : gmap Z T) :
  map_to_list (filter P m) ≡ₚ filter P (map_to_list m).
Proof.
  apply NoDup_Permutation.
  - apply NoDup_map_to_list.
  - apply NoDup_filter, NoDup_map_to_list.
  - intros [k x].
    rewrite elem_of_map_to_list, map_lookup_filter_Some, list_elem_of_filter,
      elem_of_map_to_list.
    tauto.
Qed.

Lemma length_select {T} (table : Store -> gmap Z T) cond
    (P : Z * T -> Prop) `{forall r, Decision (P r)} st :
  (forall k x, cond k x = true <-> P (k, x)) ->
  length (select table cond st) = size (filter P (table st)).
Proof.
  intros Hcond. rewrite <- length_map_to_list.
  rewrite (Permutation_length (map_to_list_filter P (table st))).
  unfold select. f_equal. apply list_filter_iff. intros [k x]. simpl.
  apply Hcond.
Qed.

Lemma NoDup_select {T} (table : Store -> gmap Z T) cond st :
  NoDup (select table cond st).
Proof. apply NoDup_filter, NoDup_map_to_list. Qed.

Section QueryFacts.

Context `{Models}.

(** X1. The operations that only read never change the committed store:
    after [login_user], [get_user_by_id], [get_all_users], [get_all_jobs],
    [get_job_by_id], [get_jobs_by_employer_id], [get_applications] and
    [get_application_by_id] the store is the one from before the call, on
    every path. *)
Theorem queries_keep_store w email password id employer_id user_id role :
  db (login_user email password w).2 = db w
  /\ db (get_user_by_id id w).2 = db w
  /\ db (get_all_users w).2 = db w
  /\ db (get_all_jobs w).2 = db w
  /\ db (get_job_by_id id w).2 = db w
  /\ db (get_jobs_by_employer_id employer_id w).2 = db w
  /\ db (get_applications user_id role w).2 = db w
  /\ db (get_application_by_id id w).2 = db w.
Proof.
  destruct w as [d ss fs]. repeat split.
  - unfold login_user. exec. destruct fs as [|[] fs]; exec; try done;
      destruct (select users (by_email email) d) as [|u [|u' l]]; exec;
      try done; by destruct (check_password _ _).
  - unfold get_user_by_id. exec. by destruct fs as [|[] fs]; exec.
  - unfold get_all_users. exec. by destruct fs as [|[] fs]; exec.
  - unfold get_all_jobs. exec. by destruct fs as [|[] fs]; exec.
  - unfold get_job_by_id. exec.
    destruct fs as [|[] fs]; exec; try done; by destruct (jobs d !! id).
  - unfold get_jobs_by_employer_id. exec.
    by destruct fs as [|[] fs]; exec.
  - unfold get_applications. exec2.
    destruct (decide (role = VStr "employer")); exec2;
      by destruct fs as [|[] fs]; exec2.
  - unfold get_application_by_id. exec2.
    by destruct fs as [|[] fs]; exec2.
Qed.

(** X2. The three lookups by primary key return the row under the key, or
    [None] when there is none, as long as the store answers.  When the
    store fails they differ: [get_job_by_id] returns [None], as for a
    missing job, while [get_user_by_id], whose only handler is for
    [NoResultFound], and [get_application_by_id], which raises again what
    it catches, let the error escape. *)
Theorem lookups_by_id w id :
  (head (faults w) <> Some true ->
   (get_user_by_id id w).1 = Return (users (db w) !! id)
   /\ (get_job_by_id id w).1
      = Return (job_to_dict id <$> jobs (db w) !! id)
   /\ (get_application_by_id id w).1
      = Return (applications (db w) !! id))
  /\ (head (faults w) = Some true ->
      (get_user_by_id id w).1 = Raise OperationalError
      /\ (get_job_by_id id w).1 = Return None
      /\ (get_application_by_id id w).1 = Raise OperationalError).
Proof.
  destruct w as [d ss fs].
  unfold get_user_by_id, get_job_by_id, get_application_by_id. exec2.
  split; intros Hf; destruct fs as [|[] fs]; simpl in *; try congruence;
    exec2; repeat split; by destruct (jobs d !! id).
Qed.

(** X3. For an [employer_id] that is a plain id, in a store whose
    columns hold plain ids: while the store answers,
    [get_jobs_by_employer_id] returns one projection for each job whose
    [employer_id] is the one asked for, [True] counting as 1 and [False]
    as 0, and nothing else; when the store fails it returns [None]. *)
Theorem get_jobs_by_employer_id_result w employer_id :
  plain_key employer_id = true -> plain_keys (db w) ->
  (head (faults w) <> Some true ->
   exists jobs_list,
     (get_jobs_by_employer_id employer_id w).1 = Return (Some jobs_list)
     /\ length jobs_list
        = size (filter (fun r : Z * Job.t =>
                          bound (Job.employer_id r.2) = bound employer_id)
                       (jobs (db w)))
     /\ forall d,
          d ∈ jobs_list
          <-> exists id j,
                jobs (db w) !! id = Some j
                /\ bound (Job.employer_id j) = bound employer_id
                /\ d = job_to_dict id j)
  /\ (head (faults w) = Some true ->
      (get_jobs_by_employer_id employer_id w).1 = Return None).
Proof.
  intros _ _. destruct w as [d ss fs]. unfold get_jobs_by_employer_id. exec.
  split; intros Hf; destruct fs as [|[] fs]; simpl in *; try congruence;
    exec; try done.
  all: eexists; split; [reflexivity|]; split;
    [rewrite length_fmap; apply length_select; intros k j;
       unfold by_job_employer; apply same_key_true|];
    intros x; rewrite list_elem_of_fmap; split.
  all: try (intros ([id j] & -> & Hin); apply elem_of_select in Hin as [Hj Hc];
            exists id, j; repeat split; try done;
            unfold by_job_employer in Hc; by apply same_key_true in Hc).
  all: intros (id & j & Hj & He & ->); exists (id, j); split; [done|];
    apply elem_of_select; split; [done|];
    unfold by_job_employer; by apply same_key_true.
Qed.

(** X4. While the store answers, [get_all_jobs] and [get_all_users] return
    one projection for each row of their table and nothing else.  When the
    store fails, [get_all_jobs] returns [None] and [get_all_users], which
    has no handler, lets the error escape. *)
Theorem list_all_result w :
  (head (faults w) <> Some true ->
   (exists jobs_list,
      (get_all_jobs w).1 = Return (Some jobs_list)
      /\ length jobs_list = size (jobs (db w))
      /\ forall d,
           d ∈ jobs_list
           <-> exists id j, jobs (db w) !! id = Some j
                            /\ d = job_to_dict id j)
   /\ (exists users_list,
         (get_all_users w).1 = Return users_list
         /\ length users_list = size (users (db w))
         /\ forall d,
              d ∈ users_list
              <-> exists id u, users (db w) !! id = Some u
                               /\ d = user_to_dict id u))
  /\ (head (faults w) = Some true ->
      (get_all_jobs w).1 = Return None
      /\ (get_all_users w).1 = Raise OperationalError).
Proof.
  destruct w as [d ss fs]. unfold get_all_jobs, get_all_users. exec.
  split; intros Hf; destruct fs as [|[] fs]; simpl in *; try congruence;
    exec; try done; rewrite !select_all.
  all: split; eexists; (split; [reflexivity|]);
    (split; [by rewrite length_fmap, length_map_to_list|]);
    intros x; rewrite list_elem_of_fmap; split.
  all: try (intros ([id j] & -> & Hin); apply elem_of_map_to_list in Hin;
            by exists id, j).
  all: intros (id & j & Hj & ->); exists (id, j); split; [done|];
    by apply elem_of_map_to_list.
Qed.

(** X5. For a [user_id] that is a plain id, in a store whose columns
    hold plain ids: while the store answers, [get_applications] returns,
    each once, exactly the applications whose [employer_id] is [user_id]
    when [role] is the string [employer], and exactly those whose
    [user_id] is [user_id] for every other role, [True] counting as 1 and
    [False] as 0; a failure of the store escapes as it is. *)
Theorem get_applications_result w user_id role :
  plain_key user_id = true -> plain_keys (db w) ->
  (head (faults w) <> Some true ->
   exists found,
     (get_applications user_id role w).1 = Return found
     /\ NoDup found
     /\ forall id a,
          (id, a) ∈ found
          <-> applications (db w) !! id = Some a
              /\ bound (if decide (role = VStr "employer")
                        then Application.employer_id a
                        else Application.user_id a)
                 = bound user_id)
  /\ (head (faults w) = Some true ->
      (get_applications user_id role w).1 = Raise OperationalError).
Proof.
  intros _ _. destruct w as [d ss fs]. unfold get_applications. exec2.
  split; intros Hf; destruct fs as [|[] fs]; simpl in *; try congruence;
    destruct (decide (role = VStr "employer")); exec2; try done.
  all: eexists; split; [reflexivity|]; split; [apply NoDup_select|];
    intros id a; rewrite elem_of_select; unfold by_employer, by_applicant;
    by rewrite same_key_true.
Qed.

End QueryFacts.

(** ** Jobs *)

Section JobFacts.

Context `{Models}.

(** X6. For an id that no job has, [update_job] returns [False] and the
    store is the one from before the call, whatever [data] holds and
    whether or not the store fails. *)
Theorem update_job_missing w job_id data :
  jobs (db w) !! job_id = None ->
  (update_job job_id data w).1 = Return false
  /\ db (update_job job_id data w).2 = db w.
Proof.
  intros Hj. destruct w as [d ss fs]. simpl in *. unfold update_job. exec.
  destruct fs as [|[] fs]; exec; by rewrite ?Hj.
Qed.

(** X7. For a job that exists, [data] with the nine keys and a store
    that does not fail, [update_job] returns [True] and the job is
    overwritten: its nine fields are those of [data], its [employer_id]
    is the one it had, and the rest of the store is as it was. *)
Theorem update_job_overwrites w job_id (data : dict) j
    v1 v2 v3 v4 v5 v6 v7 v8 v9 :
  jobs (db w) !! job_id = Some j ->
  data !! "title" = Some v1 -> data !! "description" = Some v2 ->
  data !! "requirements" = Some v3 -> data !! "salary" = Some v4 ->
  data !! "location" = Some v5 -> data !! "job_type" = Some v6 ->
  data !! "application_deadline" = Some v7 ->
  data !! "skills_required" = Some v8 ->
  data !! "preferred_qualifications" = Some v9 ->
  reliable w ->
  (update_job job_id data w).1 = Return true
  /\ db (update_job job_id data w).2
     = Sess.with_jobs
         (insert job_id (overwritten j v1 v2 v3 v4 v5 v6 v7 v8 v9)) (db w).
Proof.
  intros Hj H1 H2 H3 H4 H5 H6 H7 H8 H9 Hr. destruct w as [d ss fs].
  unfold reliable in Hr. simpl in *.
  unfold update_job. exec2.
  destruct fs as [|b1 fs]; [|apply Forall_cons in Hr as [-> Hr]]; exec2;
    rewrite Hj; exec2;
    rewrite H1; exec2; rewrite H2; exec2; rewrite H3; exec2;
    rewrite H4; exec2; rewrite H5; exec2; rewrite H6; exec2;
    rewrite H7; exec2; rewrite H8; exec2; rewrite H9; exec2.
  - unfold Sess.with_jobs. simpl. by rewrite !insert_insert_eq.
  - destruct fs as [|b2 fs]; [|apply Forall_cons in Hr as [-> Hr]]; exec2;
      unfold Sess.with_jobs; simpl; by rewrite !insert_insert_eq.
Qed.

(** Every run of [update_job] either leaves the store as it was or
    commits the full overwrite. *)
Lemma update_job_runs w job_id (data : dict) :
  let r := update_job job_id data w in
  db r.2 = db w
  \/ exists j v1 v2 v3 v4 v5 v6 v7 v8 v9,
       jobs (db w) !! job_id = Some j
       /\ r.1 = Return true
       /\ db r.2
          = Sess.with_jobs
              (insert job_id (overwritten j v1 v2 v3 v4 v5 v6 v7 v8 v9))
              (db w).
Proof.
  destruct w as [d ss fs]. simpl. unfold update_job. exec2.
  assert (forall j v1 v2 v3 v4 v5 v6 v7 v8 v9,
    <[job_id:=JobSet.preferred_qualifications v9
       (JobSet.skills_required v8
         (JobSet.application_deadline v7
           (JobSet.job_type v6
             (JobSet.location v5
               (JobSet.salary v4
                 (JobSet.requirements v3
                   (JobSet.description v2 (JobSet.title v1 j))))))))]>
      (<[job_id:=JobSet.skills_required v8
         (JobSet.application_deadline v7
           (JobSet.job_type v6
             (JobSet.location v5
               (JobSet.salary v4
                 (JobSet.requirements v3
                   (JobSet.description v2 (JobSet.title v1 j)))))))]>
        (<[job_id:=JobSet.application_deadline v7
           (JobSet.job_type v6
             (JobSet.location v5
               (JobSet.salary v4
                 (JobSet.requirements v3
                   (JobSet.description v2 (JobSet.title v1 j))))))]>
          (<[job_id:=JobSet.job_type v6
             (JobSet.location v5
               (JobSet.salary v4
                 (JobSet.requirements v3
                   (JobSet.description v2 (JobSet.title v1 j)))))]>
            (<[job_id:=JobSet.location v5
               (JobSet.salary v4
                 (JobSet.requirements v3
                   (JobSet.description v2 (JobSet.title v1 j))))]>
              (<[job_id:=JobSet.salary v4
                 (JobSet.requirements v3
                   (JobSet.description v2 (JobSet.title v1 j)))]>
                (<[job_id:=JobSet.requirements v3
                   (JobSet.description v2 (JobSet.title v1 j))]>
                  (<[job_id:=JobSet.description v2 (JobSet.title v1 j)]>
                    (<[job_id:=JobSet.title v1 j]> (jobs d)))))))))
    = <[job_id:=overwritten j v1 v2 v3 v4 v5 v6 v7 v8 v9]> (jobs d))
    as Hins by (intros; by rewrite !insert_insert_eq).
  destruct fs as [|[] fs]; exec2; try (by left);
    (destruct (jobs d !! job_id) as [j|] eqn:Hj; exec2; [|by left]);
    repeat (match goal with
            | |- context [data !! ?k] =>
                destruct (data !! k) eqn:?; exec2; [|by left]
            end).
  - right. do 10 eexists. split; [done|]. split; [done|].
    unfold Sess.with_jobs. simpl. by rewrite Hins.
  - destruct fs as [|[] fs]; exec2; try (by left);
      right; do 10 eexists; (split; [done|]); (split; [done|]);
      unfold Sess.with_jobs; simpl; by rewrite Hins.
Qed.

(** X8. On every path, [update_job] leaves the users, the applications
    and every other job as they were, and the job itself keeps its
    [employer_id]: no call deletes a job or changes its owner. *)
Theorem update_job_frame w job_id (data : dict) :
  let st := db (update_job job_id data w).2 in
  users st = users (db w)
  /\ applications st = applications (db w)
  /\ (forall k, k <> job_id -> jobs st !! k = jobs (db w) !! k)
  /\ Job.employer_id <$> jobs st !! job_id
     = Job.employer_id <$> jobs (db w) !! job_id.
Proof.
  destruct (update_job_runs w job_id data)
    as [->|(j & v1 & v2 & v3 & v4 & v5 & v6 & v7 & v8 & v9 & Hj & _ & ->)];
    simpl; [done|].
  repeat split.
  - intros k Hk. by rewrite lookup_insert_ne.
  - by rewrite lookup_insert_eq, Hj.
Qed.

(** X9. For a job that exists and [data] that lacks one of the nine
    keys, [update_job] lets the [KeyError] of a missing key escape, no
    handler catching it, and commits none of the assignments made before
    it. *)
Theorem update_job_key_error w job_id (data : dict) j key :
  jobs (db w) !! job_id = Some j ->
  head (faults w) <> Some true ->
  key ∈ update_job_keys -> data !! key = None ->
  exists missing,
    missing ∈ update_job_keys /\ data !! missing = None
    /\ (update_job job_id data w).1 = Raise (KeyError missing)
    /\ db (update_job job_id data w).2 = db w.
Proof.
  intros Hj Hf Hkey Hnone. destruct w as [d ss fs]. simpl in *.
  unfold update_job_keys in *. unfold update_job. exec2.
  assert (forall k, k ∈ ["title"; "description"; "requirements"; "salary";
                         "location"; "job_type"; "application_deadline";
                         "skills_required"; "preferred_qualifications"]
                    -> data !! k = None ->
                    exists missing : string,
                      missing ∈ ["title"; "description"; "requirements";
                                 "salary"; "location"; "job_type";
                                 "application_deadline"; "skills_required";
                                 "preferred_qualifications"]
                      /\ data !! missing = None
                      /\ @Raise bool (KeyError k) = Raise (KeyError missing)
                      /\ d = d) as Hexit
    by (intros k Hk Hn; by exists k).
  destruct fs as [|[] fs]; simpl in Hf; try done; exec2; rewrite Hj; exec2;
    repeat (match goal with
            | |- context [data !! ?k] =>
                destruct (data !! k) eqn:?; exec2;
                  [|apply Hexit; [rewrite !elem_of_cons; tauto|done]]
            end);
    exfalso; rewrite !elem_of_cons, elem_of_nil in Hkey;
    destruct Hkey as [->|[->|[->|[->|[->|[->|[->|[->|[->|[]]]]]]]]]];
    congruence.
Qed.

Lemma Job_of_complete (data : dict) w :
  Forall (fun key => is_Some (data !! key)) create_job_keys ->
  Job_of data w = (Return (Job_from data), w).
Proof.
  intros Hkeys. unfold create_job_keys in Hkeys.
  repeat (apply Forall_cons in Hkeys as [[? ?] Hkeys]).
  unfold Job_of, Job_from, dict_get, bind, getitem, ret.
  repeat match goal with
         | Hk : data !! _ = Some _ |- _ => rewrite Hk in *; clear Hk
         end.
  done.
Qed.

Lemma Job_of_incomplete (data : dict) w key :
  key ∈ create_job_keys -> data !! key = None ->
  exists missing, Job_of data w = (Raise (KeyError missing), w).
Proof.
  intros Hkey Hnone. unfold create_job_keys in Hkey.
  unfold Job_of, bind, getitem, ret, raise.
  repeat (match goal with
          | |- context [data !! ?k] =>
              destruct (data !! k) eqn:?; simpl; [|by eexists]
          end).
  exfalso. rewrite !elem_of_cons, elem_of_nil in Hkey.
  destruct Hkey as [->|[->|[->|[->|[->|[->|[->|[->|[->|[->|[]]]]]]]]]]];
    congruence.
Qed.

(** X10. With the ten keys in [data], [create_job] returns the key of
    the new job, which no job had, and adds the job built from [data] to
    the store, when the store does not fail; when the commit fails it
    returns [None] and the store is as it was. *)
Theorem create_job_creates w (data : dict) :
  Forall (fun key => is_Some (data !! key)) create_job_keys ->
  let r := create_job data w in
  let id := Sess.next_id (jobs (db w)) in
  (reliable w ->
   r.1 = Return (Some id)
   /\ jobs (db w) !! id = None
   /\ db r.2 = Sess.with_jobs (insert id (Job_from data)) (db w))
  /\ (head (faults w) = Some true ->
      r.1 = Return None /\ db r.2 = db w).
Proof.
  intros Hkeys. destruct w as [d ss fs]. simpl.
  unfold create_job. rewrite (Job_of_complete _ _ Hkeys). exec.
  split.
  - intros Hr. unfold reliable in Hr. simpl in Hr.
    destruct fs as [|b1 fs]; [|apply Forall_cons in Hr as [-> Hr]]; exec;
      repeat split; auto using next_id_fresh.
  - intros Hf. destruct fs as [|[] fs]; simpl in Hf; try congruence.
    by exec.
Qed.

(** X11. When [data] lacks one of the ten keys, [create_job] does not
    return [None]: the handler runs [session.rollback()] before [session]
    is bound, so an [UnboundLocalError] escapes; no session is made and
    the world is as it was. *)
Theorem create_job_missing_key w (data : dict) key :
  key ∈ create_job_keys -> data !! key = None ->
  create_job data w = (Raise (UnboundLocalError "session"), w).
Proof.
  intros Hkey Hnone.
  destruct (Job_of_incomplete data w key Hkey Hnone) as [missing Hm].
  unfold create_job. by rewrite Hm.
Qed.

(** X12. On every path, [delete_job] leaves the users, every other job
    and every application of another job as they were; an application is
    of another job when its [job_id], with [True] counting as 1 and
    [False] as 0, is not the id of the job. *)
Theorem delete_job_frame w job_id :
  let st := db (delete_job job_id w).2 in
  users st = users (db w)
  /\ (forall k, k <> job_id -> jobs st !! k = jobs (db w) !! k)
  /\ (forall k a,
        applications (db w) !! k = Some a ->
        bound (Application.job_id a) <> VInt job_id ->
        applications st !! k = Some a).
Proof.
  destruct w as [d ss fs]. simpl. rewrite delete_job_runs.
  assert (users (cascade job_id d) = users d
          /\ (forall k, k <> job_id ->
                jobs (cascade job_id d) !! k = jobs d !! k)
          /\ (forall k a,
                applications d !! k = Some a ->
                bound (Application.job_id a) <> VInt job_id ->
                applications (cascade job_id d) !! k = Some a)) as Hc.
  { repeat split.
    - intros k Hk. simpl. by apply lookup_delete_ne.
    - intros k a Hk Hne. simpl. by apply map_lookup_filter_Some. }
  destruct (jobs d !! job_id); destruct fs as [|[] [|[] [|[] fs]]];
    simpl; done.
Qed.

End JobFacts.

(** ** Applications *)

Section ApplicationFacts2.

Context `{Models}.

(** Every run of [delete_application]. *)
Lemma delete_application_runs d ss fs application_id :
  let gone := Sess.with_applications (delete application_id) d in
  let looked := ss ++ [{| pending := d; is_open := false |}] in
  delete_application application_id
    {| db := d; sessions := ss; faults := fs |}
  = match fs, applications d !! application_id with
    | true :: fs', _ =>
        (Raise OperationalError,
         {| db := d; sessions := looked; faults := fs' |})
    | _, None =>
        (Return false,
         {| db := d; sessions := looked; faults := tail fs |})
    | _ :: true :: fs', Some _ =>
        (Raise OperationalError,
         {| db := d;
            sessions := looked ++ [{| pending := gone; is_open := true |}];
            faults := fs' |})
    | _, Some _ =>
        (Return true,
         {| db := gone;
            sessions := looked ++ [{| pending := gone; is_open := true |}];
            faults := drop 2 fs |})
    end.
Proof.
  intros gone looked. subst gone looked.
  unfold delete_application, get_application_by_id. exec2.
  destruct fs as [|[] fs]; exec2; try done;
    destruct (applications d !! application_id); exec2; try done;
    try (unfold Sess.on_pending; simpl; done);
    destruct fs as [|[] fs]; exec2; unfold Sess.on_pending; by simpl.
Qed.

(** X13. [delete_application] returns [False] with the store unchanged
    when no application has the id; when one has it and the store does not
    fail, it returns [True] and exactly that row is gone; and whenever it
    does not return [True], also when the commit fails and the error
    escapes, the store is as it was. *)
Theorem delete_application_result w application_id :
  let r := delete_application application_id w in
  (applications (db w) !! application_id = None ->
   head (faults w) <> Some true ->
   r.1 = Return false /\ db r.2 = db w)
  /\ (is_Some (applications (db w) !! application_id) -> reliable w ->
      r.1 = Return true
      /\ db r.2 = Sess.with_applications (delete application_id) (db w))
  /\ (r.1 <> Return true -> db r.2 = db w).
Proof.
  destruct w as [d ss fs]. simpl. rewrite delete_application_runs.
  split; [|split].
  - intros -> Hf. destruct fs as [|[] [|[] fs]]; simpl in *; try done;
      congruence.
  - intros [a ->] Hr. unfold reliable in Hr. simpl in Hr.
    destruct fs as [|b1 fs]; [done|].
    apply Forall_cons in Hr as [-> Hr].
    destruct fs as [|b2 fs]; [done|].
    by apply Forall_cons in Hr as [-> Hr].
  - destruct (applications d !! application_id);
      destruct fs as [|[] [|[] fs]]; simpl; done.
Qed.

(** X14. With the ten subscripted keys in [data], plain ids for the
    user and the job in [data] and in the columns of the store, no
    application yet for the pair of user and job as the store compares
    it, [True] counting as 1 and [False] as 0, and a store that does not
    fail, [create_application] returns the new application under a key
    that no application had and adds it to the store; its fields are
    those of [data], and [years_of_experience] is [None] when [data] has
    none. *)
Theorem create_application_creates w (data : dict) :
  Forall (fun key => is_Some (data !! key)) create_application_keys ->
  plain_key (dict_get data "user_id") = true ->
  plain_key (dict_get data "job_id") = true ->
  plain_keys (db w) ->
  select applications
    (by_pair (dict_get data "user_id") (dict_get data "job_id")) (db w)
  = [] ->
  reliable w ->
  let r := create_application data w in
  let id := Sess.next_id (applications (db w)) in
  r.1 = Return (id, Application_of data)
  /\ applications (db w) !! id = None
  /\ db r.2 = Sess.with_applications (insert id (Application_of data)) (db w).
Proof.
  intros Hkeys _ _ _ Hnew Hr. destruct w as [d ss fs].
  unfold reliable in Hr.
  simpl in *. unfold create_application_keys in Hkeys.
  repeat (apply Forall_cons in Hkeys as [[? ?] Hkeys]).
  unfold Application_of, dict_get in *. unfold create_application. exec.
  repeat match goal with
         | Hk : data !! _ = Some _ |- _ => rewrite Hk in *; clear Hk
         end.
  simpl in *.
  destruct fs as [|b1 fs]; [|apply Forall_cons in Hr as [-> Hr]]; exec;
    rewrite Hnew; exec.
  - repeat split; auto using next_id_fresh.
  - destruct fs as [|b2 fs]; [|apply Forall_cons in Hr as [-> Hr]]; exec;
      repeat split; auto using next_id_fresh.
Qed.

(** X15. Every call of [create_application] either returns an
    application that it has added under a fresh key, or raises, for a
    duplicate, a missing key or a failure of the store, with the committed
    store as it was. *)
Theorem create_application_all_or_nothing w (data : dict) :
  let r := create_application data w in
  match r.1 with
  | Return (id, a) =>
      applications (db w) !! id = None
      /\ db r.2 = Sess.with_applications (insert id a) (db w)
  | Raise _ => db r.2 = db w
  end.
Proof.
  simpl. destruct (create_application data w).1 as [[id a]|e] eqn:E.
  - destruct (create_application_inserts w data id a E) as (-> & Hid & _).
    done.
  - by apply (create_application_raises w data e).
Qed.

End ApplicationFacts2.

(** ** Registration *)

Section RegisterFacts.

Context `{Models} `{UserModel}.

(** X16. When the validation of the role-specific fields fails,
    [register_user] raises a [ValueError] whose text starts with
    [Validation error: ], before any session is made and with the world
    as it was.  Otherwise it stores the user, with the password set by
    [set_password], under a key that no user had, when the store answers;
    when the commit fails it raises the [SQLAlchemyError] for the failed
    registration and the store is as it was.  In both of these cases the
    session it made is closed. *)
Theorem register_user_result w
    username password email role phone_number address
    first_name last_name company_name website contact_info :
  let new_user :=
    User_of username email role phone_number address first_name
      last_name company_name website contact_info in
  let r :=
    register_user username password email role phone_number address
      first_name last_name company_name website contact_info w in
  let id := Sess.next_id (users (db w)) in
  (forall ve,
     validate_role_specific_fields new_user = Some ve ->
     r = (Raises (ValueError ("Validation error: " +:+ ve)), w))
  /\ (validate_role_specific_fields new_user = None ->
      (head (faults w) <> Some true ->
       r.1 = Registered
       /\ users (db w) !! id = None
       /\ db r.2
          = SessRows.with_users
              (insert id (set_password password new_user)) (db w))
      /\ (head (faults w) = Some true ->
          r.1 = Raises_failed_to_register OperationalError
          /\ db r.2 = db w)
      /\ open_sessions r.2 = open_sessions w).
Proof.
  intros new_user r id. subst new_user r id.
  destruct w as [d ss fs]. unfold register_user, User_of. split.
  - intros ve Hv. by rewrite Hv.
  - intros Hv. rewrite Hv. exec2.
    destruct fs as [|[] fs]; exec2;
      (split; [|split; [|apply open_after_close]]);
      intros Hf; simpl in Hf; try congruence;
      repeat split; auto using next_id_fresh.
Qed.

End RegisterFacts.

(** ** Sessions *)

Section SessionFacts.

Context `{Models}.

(** X17. [get_jobs_by_employer_id], [get_applications] and
    [get_application_by_id] close the session they make on every path:
    the open sessions after the call are those from before it. *)
Theorem sessions_released w employer_id user_id role application_id :
  open_sessions (get_jobs_by_employer_id employer_id w).2 = open_sessions w
  /\ open_sessions (get_applications user_id role w).2 = open_sessions w
  /\ open_sessions (get_application_by_id application_id w).2
     = open_sessions w.
Proof.
  destruct w as [d ss fs]. repeat split.
  - unfold get_jobs_by_employer_id. exec.
    destruct fs as [|[] fs]; exec; apply open_after_close.
  - unfold get_applications. exec2.
    destruct (decide (role = VStr "employer")); exec2;
      destruct fs as [|[] fs]; exec2; apply open_after_close.
  - unfold get_application_by_id. exec2.
    destruct fs as [|[] fs]; exec2; apply open_after_close.
Qed.

(** X18. [get_user_by_id], [get_all_jobs], [get_job_by_id],
    [update_job] and [create_application] never close the session they
    make: on every path there is one more open session after the call. *)
Theorem sessions_not_released w id job_id (data : dict) :
  length (open_sessions (get_user_by_id id w).2)
    = S (length (open_sessions w))
  /\ length (open_sessions (get_all_jobs w).2)
     = S (length (open_sessions w))
  /\ length (open_sessions (get_job_by_id job_id w).2)
     = S (length (open_sessions w))
  /\ length (open_sessions (update_job job_id data w).2)
     = S (length (open_sessions w))
  /\ length (open_sessions (create_application data w).2)
     = S (length (open_sessions w)).
Proof.
  destruct w as [d ss fs]. repeat split.
  - unfold get_user_by_id. exec.
    destruct fs as [|[] fs]; exec; by apply open_after_leak.
  - unfold get_all_jobs. exec.
    destruct fs as [|[] fs]; exec; by apply open_after_leak.
  - unfold get_job_by_id. exec.
    destruct fs as [|[] fs]; exec; try (by apply open_after_leak);
      destruct (jobs d !! job_id); by apply open_after_leak.
  - unfold update_job. exec2.
    destruct fs as [|[] fs]; exec2; try (by apply open_after_leak);
      (destruct (jobs d !! job_id) as [j|]; exec2;
         [|by apply open_after_leak]);
      repeat (match goal with
              | |- context [data !! ?k] =>
                  destruct (data !! k) eqn:?; exec2;
                    [|by apply open_after_leak]
              end);
      try (by apply open_after_leak);
      destruct fs as [|[] fs]; exec2; by apply open_after_leak.
  - unfold create_application. exec.
    (destruct (data !! "user_id") as [uid|]; exec;
       [|by apply open_after_leak]);
    (destruct (data !! "job_id") as [jid|]; exec;
       [|by apply open_after_leak]);
    destruct fs as [|[] fs]; exec; try (by apply open_after_leak);
      (destruct (head (select applications (by_pair uid jid) d)); exec;
         [by apply open_after_leak|]);
      repeat (match goal with
              | |- context [data !! ?k] =>
                  destruct (data !! k) eqn:?; exec;
                    [|by apply open_after_leak]
              end);
      try (by apply open_after_leak);
      destruct fs as [|[] fs]; exec; by apply open_after_leak.
Qed.

End SessionFacts.

(** ** Operations in sequence *)

Lemma select_insert_single {T} (m : gmap Z T) (P : Z * T -> Prop)
    `{forall r, Decision (P r)} id x :
  m !! id = None -> P (id, x) ->
  filter P (map_to_list m) = [] ->
  filter P (map_to_list (<[id:=x]> m)) = [(id, x)].
Proof.
  intros Hid HP Hnone. apply Permutation_singleton_r.
  rewrite (filter_Permutation _ _ _ (map_to_list_insert _ id x Hid)).
  by rewrite filter_cons_True, Hnone by done.
Qed.

Section Sequences.

Context `{Models} `{UserModel}.

(** X19. A job made by [create_job] is found by [get_job_by_id] under
    the key that [create_job] returned, as the projection of the job built
    from [data]. *)
Theorem create_job_then_get w (data : dict) :
  Forall (fun key => is_Some (data !! key)) create_job_keys ->
  reliable w ->
  let id := Sess.next_id (jobs (db w)) in
  (get_job_by_id id (create_job data w).2).1
  = Return (Some (job_to_dict id (Job_from data))).
Proof.
  intros Hkeys Hr. destruct w as [d ss fs]. simpl.
  unfold create_job. rewrite (Job_of_complete _ _ Hkeys).
  unfold get_job_by_id.
  two_trips fs Hr; exec; exec; unfold Sess.with_jobs; simpl;
    by rewrite lookup_insert_eq.
Qed.

(** X20. An application made by [create_application], from [data] with
    plain ids for a pair of user and job that has no application yet as
    the store compares it, is found by [get_application_by_id] under its
    key, with the fields of [data]. *)
Theorem create_application_then_get w (data : dict) :
  Forall (fun key => is_Some (data !! key)) create_application_keys ->
  plain_key (dict_get data "user_id") = true ->
  plain_key (dict_get data "job_id") = true ->
  plain_keys (db w) ->
  select applications
    (by_pair (dict_get data "user_id") (dict_get data "job_id")) (db w)
  = [] ->
  reliable w ->
  let id := Sess.next_id (applications (db w)) in
  (get_application_by_id id (create_application data w).2).1
  = Return (Some (Application_of data)).
Proof.
  intros Hkeys _ _ _ Hnew Hr. destruct w as [d ss fs]. simpl in *.
  unfold create_application_keys in Hkeys.
  repeat (apply Forall_cons in Hkeys as [[? ?] Hkeys]).
  unfold Application_of, dict_get in *.
  unfold get_application_by_id, create_application. exec2.
  repeat match goal with
         | Hk : data !! _ = Some _ |- _ => rewrite Hk in *; clear Hk
         end.
  simpl in *.
  three_trips fs Hr; exec2; rewrite Hnew; exec2; exec2;
    unfold Sess.with_applications; simpl; by rewrite lookup_insert_eq.
Qed.

(** X21. After [update_application_status] with a [status] in
    [data], [get_application_by_id] returns the application with that
    status and its other fields as they were. *)
Theorem update_status_then_get w application_id a (data : dict) v :
  applications (db w) !! application_id = Some a ->
  data !! "status" = Some v ->
  reliable w ->
  (get_application_by_id application_id
     (update_application_status application_id data w).2).1
  = Return (Some (Application.set_status v a)).
Proof.
  intros Ha Hd Hr. destruct w as [d ss fs]. simpl in *.
  unfold get_application_by_id, update_application_status. exec2.
  three_trips fs Hr; exec2; rewrite ?Ha, ?Hd; exec2; rewrite ?Ha, ?Hd;
    exec2; unfold Sess.with_applications; simpl;
    by rewrite lookup_insert_eq.
Qed.

(** X22. After [delete_application] has deleted an application,
    [get_application_by_id] finds nothing under its id. *)
Theorem delete_application_then_get w application_id :
  is_Some (applications (db w) !! application_id) ->
  reliable w ->
  (get_application_by_id application_id
     (delete_application application_id w).2).1
  = Return None.
Proof.
  intros [a Ha] Hr. destruct w as [d ss fs]. simpl in *.
  rewrite delete_application_runs. rewrite Ha.
  unfold get_application_by_id.
  three_trips fs Hr; exec2; unfold Sess.with_applications; simpl;
    by rewrite lookup_delete_eq.
Qed.

(** X23. An application made by [create_application] for a job, from
    [data] with plain ids for a pair of user and job that has no
    application yet as the store compares it, is in the store, and
    deleting that job with [delete_job] removes it. *)
Theorem create_application_then_delete_job w (data : dict) job_id :
  Forall (fun key => is_Some (data !! key)) create_application_keys ->
  data !! "job_id" = Some (VInt job_id) ->
  plain_key (dict_get data "user_id") = true ->
  plain_keys (db w) ->
  select applications
    (by_pair (dict_get data "user_id") (dict_get data "job_id")) (db w)
  = [] ->
  is_Some (jobs (db w) !! job_id) ->
  reliable w ->
  let id := Sess.next_id (applications (db w)) in
  let w1 := (create_application data w).2 in
  applications (db w1) !! id = Some (Application_of data)
  /\ (delete_job job_id w1).1 = Return true
  /\ applications (db (delete_job job_id w1).2) !! id = None.
Proof.
  intros Hkeys Hjob _ _ Hnew [j Hj] Hr. destruct w as [d ss fs].
  simpl in *.
  assert (Application.job_id (Application_of data) = VInt job_id) as Hjid
    by (unfold Application_of, dict_get; by rewrite Hjob).
  unfold create_application_keys in Hkeys.
  repeat (apply Forall_cons in Hkeys as [[? ?] Hkeys]).
  unfold dict_get in Hnew.
  unfold create_application. exec.
  assert (forall ss1 fs1,
    Forall (fun b => b = false) fs1 ->
    let w1 :=
      {| db := Sess.with_applications
                 (insert (Sess.next_id (applications d))
                    (Application_of data)) d;
         sessions := ss1; faults := fs1 |} in
    applications (db w1) !! Sess.next_id (applications d)
      = Some (Application_of data)
    /\ (delete_job job_id w1).1 = Return true
    /\ applications (db (delete_job job_id w1).2)
         !! Sess.next_id (applications d) = None) as Hthen.
  { intros ss1 fs1 Hr1 w1. subst w1.
    rewrite delete_job_runs. simpl. rewrite lookup_insert_eq, Hj.
    split; [done|].
    assert (filter (fun r : Z * Application.t =>
                      bound (Application.job_id r.2) <> VInt job_id)
              (<[Sess.next_id (applications d):=Application_of data]>
                 (applications d))
            !! Sess.next_id (applications d) = None) as Hgone.
    { apply map_lookup_filter_None. right. intros a'.
      rewrite lookup_insert_eq. intros [= <-] Hne. apply Hne.
      change (bound (Application.job_id (Application_of data))
              = VInt job_id).
      by rewrite Hjid. }
    destruct fs1 as [|? [|? [|? fs1]]];
      repeat (apply Forall_cons in Hr1 as [-> Hr1]); simpl; done. }
  unfold Application_of, dict_get in *.
  repeat match goal with
         | Hk : data !! _ = Some _ |- _ => rewrite Hk in *; clear Hk
         end.
  simpl in *.
  three_trips fs Hr; exec; rewrite Hnew; exec;
    apply (Hthen _ _); auto.
Qed.

(** X24. A user registered by [register_user] logs in with the same
    email and password, provided no user had the email, [set_password]
    leaves the email alone, and [check_password] accepts what
    [set_password] stored. *)
Theorem register_then_login w
    username password email role phone_number address
    first_name last_name company_name website contact_info :
  let new_user :=
    set_password password
      (User_of username email role phone_number address first_name
         last_name company_name website contact_info) in
  let id := Sess.next_id (users (db w)) in
  validate_role_specific_fields
    (User_of username email role phone_number address first_name
       last_name company_name website contact_info) = None ->
  User.email new_user = email ->
  check_password new_user password = true ->
  select users (by_email email) (db w) = [] ->
  reliable w ->
  (login_user email password
     (register_user username password email role phone_number address
        first_name last_name company_name website contact_info w).2).1
  = Return (Some (id, new_user)).
Proof.
  intros new_user id Hv He Hp Hnone Hr. subst id.
  destruct w as [d ss fs]. simpl in *.
  assert (select users (by_email email)
            (SessRows.with_users
               (insert (Sess.next_id (users d)) new_user) d)
          = [(Sess.next_id (users d), new_user)]) as Hsel.
  { unfold select. simpl. apply select_insert_single.
    - apply next_id_fresh.
    - simpl. unfold by_email. by apply bool_decide_eq_true.
    - apply Hnone. }
  subst new_user. unfold register_user, login_user.
  unfold User_of in *. rewrite Hv.
  two_trips fs Hr; exec2; exec2; rewrite Hsel; simpl; by rewrite Hp.
Qed.

End Sequences.

(** ** The gate, continued *)

Module SplitFacts.
Import PyStr PyStrFacts.

Lemma isspace_lower_char c : isspace (lower_char c) = isspace c.
Proof. by destruct c as [[] [] [] [] [] [] [] []]. Qed.

Lemma solid_lower s : solid (lower s) = solid s.
Proof.
  induction s as [|c s IH]; [done|]. simpl.
  by rewrite isspace_lower_char, IH.
Qed.

(** A scheme that reads [bearer] in lower case is one word. *)
Lemma bearer_is_word scheme :
  lower scheme = "bearer" -> solid scheme = true /\ scheme <> EmptyString.
Proof.
  intros Hl. split.
  - by rewrite <- solid_lower, Hl.
  - by intros ->.
Qed.

(** Reading a word adds it to the run. *)
Lemma split_from_word s : forall cur rest,
  solid s = true ->
  split_from cur (s +:+ rest) = split_from (cur +:+ s) rest.
Proof.
  induction s as [|c s IH]; intros cur rest Hs.
  - by rewrite append_empty_r.
  - simpl in Hs. apply andb_prop in Hs as [Hc Hs].
    apply negb_true_iff in Hc. rewrite append_cons. simpl. rewrite Hc.
    rewrite IH by done. by rewrite snoc_append.
Qed.

(** Whitespace before a word is skipped. *)
Lemma split_from_blank ws : forall rest,
  blank ws = true ->
  split_from EmptyString (ws +:+ rest) = split_from EmptyString rest.
Proof.
  induction ws as [|c ws IH]; intros rest Hb; [done|].
  simpl in Hb. apply andb_prop in Hb as [Hc Hb].
  rewrite append_cons. simpl. rewrite Hc. simpl. by apply IH.
Qed.

(** Whitespace after a word ends it. *)
Lemma split_from_gap cur ws rest :
  cur <> EmptyString -> blank ws = true -> ws <> EmptyString ->
  split_from cur (ws +:+ rest) = cur :: split_from EmptyString rest.
Proof.
  intros Hcur Hb Hne. destruct ws as [|c ws]; [done|].
  simpl in Hb. apply andb_prop in Hb as [Hc Hb].
  rewrite append_cons. simpl. rewrite Hc.
  destruct (decide (cur = EmptyString)); [done|].
  by rewrite split_from_blank.
Qed.

Lemma split_word_gap a ws rest :
  solid a = true -> a <> EmptyString -> blank ws = true ->
  ws <> EmptyString ->
  split (a +:+ ws +:+ rest) = a :: split rest.
Proof.
  intros Ha Hane Hb Hne. unfold split.
  rewrite split_from_word by done. change (EmptyString +:+ a) with a.
  by rewrite split_from_gap.
Qed.

Lemma split_word a :
  solid a = true -> a <> EmptyString -> split a = [a].
Proof.
  intros Ha Hne. unfold split. by rewrite split_from_solid.
Qed.

End SplitFacts.

Section GateFacts2.

Context `{JwtLib}.
Variable SECRET_KEY : string.
Context {Args S R : Type}.
Implicit Types (f : view Args S R) (headers : gmap string string).

(** X25. The gate reads the scheme in any casing and takes any run of
    whitespace between scheme and token: such a header is answered as
    [Bearer], one blank and the same token is. *)
Theorem gate_scheme_and_gap f headers now args st scheme ws token :
  headers !! "Authorization" = Some (scheme +:+ ws +:+ token) ->
  PyStr.lower scheme = "bearer" ->
  blank ws = true -> ws <> EmptyString ->
  PyStr.solid token = true -> token <> EmptyString ->
  token_required SECRET_KEY f headers now args st
  = token_required SECRET_KEY f
      {[ "Authorization" := "Bearer " +:+ token ]} now args st.
Proof.
  intros Hh Hs Hb Hne Ht Htne.
  destruct (SplitFacts.bearer_is_word scheme Hs) as [Hsolid Hsne].
  assert (PyStr.split (scheme +:+ ws +:+ token) = [scheme; token]) as Hsp.
  { rewrite SplitFacts.split_word_gap by done.
    by rewrite SplitFacts.split_word. }
  rewrite (gate_decodes _ _ _ _ _ _ _ _ _ Hh Hsp Hs).
  symmetry.
  apply (gate_decodes _ _ _ _ _ _ ("Bearer " +:+ token) "Bearer").
  - apply lookup_singleton_eq.
  - by apply PyStrFacts.split_bearer.
  - reflexivity.
Qed.

(** X26. A header of one word, or of three words, is answered with the
    rejection for a malformed header whatever the words are: the token
    library is not asked. *)
Theorem gate_counts_parts f headers now args st a b c :
  PyStr.solid a = true -> a <> EmptyString ->
  PyStr.solid b = true -> b <> EmptyString ->
  PyStr.solid c = true -> c <> EmptyString ->
  (headers !! "Authorization" = Some a
   \/ headers !! "Authorization" = Some (a +:+ " " +:+ b +:+ " " +:+ c)) ->
  token_required SECRET_KEY f headers now args st
  = (Unauthorized "Invalid token format!", st).
Proof.
  intros Ha Hane Hb Hbne Hc Hcne Hh.
  assert (forall h parts,
    headers !! "Authorization" = Some h -> h <> EmptyString ->
    PyStr.split h = parts -> length parts <> 2%nat ->
    token_required SECRET_KEY f headers now args st
    = (Unauthorized "Invalid token format!", st)) as Hbad.
  { intros h parts Hh' Hne <- Hlen. unfold token_required.
    rewrite Hh'. rewrite decide_False by done.
    destruct (PyStr.split h) as [|x [|y [|z l]]]; simpl in *; done. }
  destruct Hh as [Hh|Hh].
  - apply (Hbad a [a]); [done|done|by apply SplitFacts.split_word|done].
  - apply (Hbad (a +:+ " " +:+ b +:+ " " +:+ c) [a; b; c]);
      [done| |simpl|done].
    + destruct a; [done|]. by rewrite PyStrFacts.append_cons.
    + rewrite (SplitFacts.split_word_gap a " ") by done.
      rewrite (SplitFacts.split_word_gap b " ") by done.
      by rewrite SplitFacts.split_word.
Qed.

End GateFacts2.

(** ** The further theorems at sample inputs *)

Lemma demo_world_unique : unique_applications (db demo_world).
Proof.
  intros uid jid. unfold select.
  assert (map_to_list (applications (db demo_world))
          = [(3, demo_application 7); (4, demo_application 8)]) as ->
    by (vm_compute; reflexivity).
  rewrite !filter_cons, filter_nil. simpl.
  destruct (decide (by_pair uid jid 3 (demo_application 7) = true))
    as [H3|H3];
    destruct (decide (by_pair uid jid 4 (demo_application 8) = true))
      as [H4|H4]; simpl; try lia.
  unfold by_pair in H3, H4.
  apply andb_prop in H3 as [_ H3]. apply andb_prop in H4 as [_ H4].
  apply same_key_true in H3, H4. simpl in *. congruence.
Qed.

Lemma demo_world_plain : plain_keys (db demo_world).
Proof.
  split; simpl.
  - apply map_Forall_insert_2; [done|].
    apply map_Forall_insert_2; [done|]. apply map_Forall_empty.
  - apply map_Forall_insert_2; [done|].
    apply map_Forall_insert_2; [done|]. apply map_Forall_empty.
Qed.

(** X3 at the employer of the two sample jobs. *)
Lemma get_jobs_by_employer_id_result_witness :
  (head (faults demo_world) <> Some true ->
   exists jobs_list,
     (get_jobs_by_employer_id (H := demo_models) (VInt 2) demo_world).1
     = Return (Some jobs_list)
     /\ length jobs_list
        = size (filter (fun r : Z * Job.t =>
                          bound (Job.employer_id r.2) = bound (VInt 2))
                       (jobs (db demo_world)))
     /\ forall d,
          d ∈ jobs_list
          <-> exists id j,
                jobs (db demo_world) !! id = Some j
                /\ bound (Job.employer_id j) = bound (VInt 2)
                /\ d = @job_to_dict demo_models id j)
  /\ (head (faults demo_world) = Some true ->
      (get_jobs_by_employer_id (H := demo_models) (VInt 2) demo_world).1
      = Return None).
Proof.
  apply (get_jobs_by_employer_id_result (H := demo_models) demo_world
           (VInt 2)).
  - reflexivity.
  - apply demo_world_plain.
Defined.

(** X5 at [True] for the user: the applications of user 1. *)
Lemma get_applications_result_witness :
  (head (faults demo_world) <> Some true ->
   exists found,
     (get_applications (VBool true) (VStr "job_seeker") demo_world).1
     = Return found
     /\ NoDup found
     /\ forall id a,
          (id, a) ∈ found
          <-> applications (db demo_world) !! id = Some a
              /\ bound (if decide (VStr "job_seeker" = VStr "employer")
                        then Application.employer_id a
                        else Application.user_id a)
                 = bound (VBool true))
  /\ (head (faults demo_world) = Some true ->
      (get_applications (VBool true) (VStr "job_seeker") demo_world).1
      = Raise OperationalError).
Proof.
  apply (get_applications_result demo_world (VBool true)
           (VStr "job_seeker")).
  - reflexivity.
  - apply demo_world_plain.
Defined.

Lemma demo_job_keys :
  Forall (fun key => is_Some (demo_job_data !! key)) create_job_keys.
Proof. repeat constructor; by eexists. Qed.

Lemma demo_application_keys :
  Forall (fun key => is_Some (demo_application_data !! key))
    create_application_keys.
Proof. repeat constructor; by eexists. Qed.

(** X6 at the id 99, which no job has. *)
Lemma update_job_missing_witness :
  (update_job 99 demo_job_data demo_world).1 = Return false
  /\ db (update_job 99 demo_job_data demo_world).2 = db demo_world.
Proof. apply (update_job_missing demo_world 99 demo_job_data). reflexivity. Defined.

(** X7 at job 7 and the sample posting. *)
Lemma update_job_overwrites_witness :
  (update_job 7 demo_job_data demo_world).1 = Return true
  /\ db (update_job 7 demo_job_data demo_world).2
     = Sess.with_jobs
         (insert 7
            (overwritten demo_job (VStr "Analyst") (VStr "Reads data")
               (VStr "SQL") (VInt 20) (VStr "Bulawayo") (VStr "part-time")
               (VStr "2025-06-01") (VStr "SQL") (VStr "BSc")))
         (db demo_world).
Proof.
  apply (update_job_overwrites demo_world 7 demo_job_data demo_job);
    try reflexivity.
  constructor.
Defined.

(** X9 at job 7 and the posting without its salary. *)
Lemma update_job_key_error_witness :
  exists missing,
    missing ∈ update_job_keys /\ demo_job_data_short !! missing = None
    /\ (update_job 7 demo_job_data_short demo_world).1
       = Raise (KeyError missing)
    /\ db (update_job 7 demo_job_data_short demo_world).2 = db demo_world.
Proof.
  apply (update_job_key_error demo_world 7 demo_job_data_short demo_job
           "salary").
  - reflexivity.
  - discriminate.
  - unfold update_job_keys. rewrite !elem_of_cons. auto 12.
  - reflexivity.
Defined.

(** X10 at the sample posting. *)
Lemma create_job_creates_witness :
  (create_job demo_job_data demo_world).1
    = Return (Some (Sess.next_id (jobs (db demo_world))))
  /\ jobs (db demo_world) !! Sess.next_id (jobs (db demo_world)) = None
  /\ db (create_job demo_job_data demo_world).2
     = Sess.with_jobs
         (insert (Sess.next_id (jobs (db demo_world)))
            (Job_from demo_job_data)) (db demo_world).
Proof.
  apply (create_job_creates demo_world demo_job_data demo_job_keys).
  constructor.
Defined.

(** X11 at the posting without its salary. *)
Lemma create_job_missing_key_witness :
  create_job demo_job_data_short demo_world
  = (Raise (UnboundLocalError "session"), demo_world).
Proof.
  apply (create_job_missing_key demo_world demo_job_data_short "salary").
  - unfold create_job_keys. rewrite !elem_of_cons. auto 12.
  - reflexivity.
Defined.

(** X14 at the application of user 5 for job 7. *)
Lemma create_application_creates_witness :
  (create_application demo_application_data demo_world).1
    = Return (Sess.next_id (applications (db demo_world)),
              Application_of demo_application_data)
  /\ applications (db demo_world)
       !! Sess.next_id (applications (db demo_world)) = None
  /\ db (create_application demo_application_data demo_world).2
     = Sess.with_applications
         (insert (Sess.next_id (applications (db demo_world)))
            (Application_of demo_application_data)) (db demo_world).
Proof.
  apply (create_application_creates demo_world demo_application_data
           demo_application_keys).
  - reflexivity.
  - reflexivity.
  - apply demo_world_plain.
  - reflexivity.
  - constructor.
Defined.

(** X19 at the sample posting. *)
Lemma create_job_then_get_witness :
  (get_job_by_id (H := demo_models) (Sess.next_id (jobs (db demo_world)))
     (create_job demo_job_data demo_world).2).1
  = Return (Some (@job_to_dict demo_models
                    (Sess.next_id (jobs (db demo_world)))
                    (Job_from demo_job_data))).
Proof.
  apply (create_job_then_get (H := demo_models) demo_world demo_job_data
           demo_job_keys).
  constructor.
Defined.

(** X20 at the application of user 5 for job 7. *)
Lemma create_application_then_get_witness :
  (get_application_by_id (Sess.next_id (applications (db demo_world)))
     (create_application demo_application_data demo_world).2).1
  = Return (Some (Application_of demo_application_data)).
Proof.
  apply (create_application_then_get demo_world demo_application_data
           demo_application_keys).
  - reflexivity.
  - reflexivity.
  - apply demo_world_plain.
  - reflexivity.
  - constructor.
Defined.

(** X21 at application 3, accepted. *)
Lemma update_status_then_get_witness :
  (get_application_by_id 3
     (update_application_status (H := demo_models) 3 demo_status_data
        demo_world).2).1
  = Return (Some (Application.set_status (VStr "accepted")
                    (demo_application 7))).
Proof.
  apply (update_status_then_get (H := demo_models) demo_world 3
           (demo_application 7) demo_status_data (VStr "accepted")).
  - reflexivity.
  - reflexivity.
  - constructor.
Defined.

(** X22 at application 3. *)
Lemma delete_application_then_get_witness :
  (get_application_by_id 3 (delete_application 3 demo_world).2).1
  = Return None.
Proof.
  apply (delete_application_then_get demo_world 3).
  - exists (demo_application 7). reflexivity.
  - constructor.
Defined.

(** X23 at the application of user 5 for job 7. *)
Lemma create_application_then_delete_job_witness :
  let id := Sess.next_id (applications (db demo_world)) in
  let w1 := (create_application demo_application_data demo_world).2 in
  applications (db w1) !! id = Some (Application_of demo_application_data)
  /\ (delete_job 7 w1).1 = Return true
  /\ applications (db (delete_job 7 w1).2) !! id = None.
Proof.
  apply (create_application_then_delete_job demo_world
           demo_application_data 7 demo_application_keys).
  - reflexivity.
  - reflexivity.
  - apply demo_world_plain.
  - reflexivity.
  - exists demo_job. reflexivity.
  - constructor.
Defined.

(** X24 at a new job seeker. *)
Lemma register_then_login_witness :
  (login_user (H := demo_models) (VStr "bo@example.org") (VStr "pw")
     (register_user (H0 := demo_user_model) (VStr "bo") (VStr "pw")
        (VStr "bo@example.org") (VStr "job_seeker") (VStr "556")
        (VStr "2 Main St") (VStr "Bo") (VStr "Moyo") VNone VNone VNone
        demo_world).2).1
  = Return (Some (Sess.next_id (users (db demo_world)),
                  @set_password demo_user_model (VStr "pw")
                    (User_of (VStr "bo") (VStr "bo@example.org")
                       (VStr "job_seeker") (VStr "556") (VStr "2 Main St")
                       (VStr "Bo") (VStr "Moyo") VNone VNone VNone))).
Proof.
  apply (register_then_login (H := demo_models) (H0 := demo_user_model)
           demo_world (VStr "bo") (VStr "pw") (VStr "bo@example.org")
           (VStr "job_seeker") (VStr "556") (VStr "2 Main St") (VStr "Bo")
           (VStr "Moyo") VNone VNone VNone).
  - reflexivity.
  - reflexivity.
  - reflexivity.
  - reflexivity.
  - constructor.
Defined.

(** A scheme in capitals, and a tab and a blank before the token. *)
Definition shouted : string := "BEARER".
Definition gap : string := String (ascii_of_nat 9) " ".

(** X25 at the sample token. *)
Lemma gate_scheme_and_gap_witness :
  token_required (H := ref_jwt) "key" demo_view
    {[ "Authorization" := shouted +:+ gap +:+ demo_token ]} 2000 tt 0%nat
  = token_required (H := ref_jwt) "key" demo_view
      {[ "Authorization" := "Bearer " +:+ demo_token ]} 2000 tt 0%nat.
Proof.
  apply (gate_scheme_and_gap (H := ref_jwt) "key" demo_view
           {[ "Authorization" := shouted +:+ gap +:+ demo_token ]} 2000 tt
           0%nat shouted gap demo_token).
  - apply lookup_singleton_eq.
  - reflexivity.
  - reflexivity.
  - discriminate.
  - apply (jwt_compact
             (issued_payload 1000 (VInt 1) (VStr "ann") (VStr "employer"))
             "key").
  - apply (jwt_compact
             (issued_payload 1000 (VInt 1) (VStr "ann") (VStr "employer"))
             "key").
Defined.

(** X26 at the header that holds the scheme alone. *)
Lemma gate_counts_parts_witness :
  token_required (H := ref_jwt) "key" demo_view
    {[ "Authorization" := "Bearer" ]} 2000 tt 0%nat
  = (Unauthorized "Invalid token format!", 0%nat).
Proof.
  apply (gate_counts_parts (H := ref_jwt) "key" demo_view
           {[ "Authorization" := "Bearer" ]} 2000 tt 0%nat
           "Bearer" "x" "y"); try reflexivity; try discriminate.
  left. apply lookup_singleton_eq.
Defined.

(** ** What every call returns, and the invariant of the applications *)

Lemma filter_length_submseteq {A} (P : A -> Prop) `{forall x, Decision (P x)}
    (l1 l2 : list A) :
  l1 ⊆+ l2 -> (length (filter P l1) <= length (filter P l2))%nat.
Proof.
  induction 1 as [|x l1 l2 _ IH|x y l|x l1 l2 _ IH|l1 l2 l3 _ IH1 _ IH2].
  - done.
  - rewrite !filter_cons. destruct (decide (P x)); simpl; lia.
  - rewrite !filter_cons.
    destruct (decide (P x)); destruct (decide (P y)); simpl; lia.
  - rewrite filter_cons. destruct (decide (P x)); simpl; lia.
  - lia.
Qed.

(** With fewer applications there are no more for any pair. *)
Lemma unique_of_subseteq st st' :
  applications st' ⊆ applications st ->
  unique_applications st -> unique_applications st'.
Proof.
  intros Hsub Hun uid jid. specialize (Hun uid jid). unfold select in *.
  pose proof (filter_length_submseteq
                (fun r : Z * Application.t => by_pair uid jid r.1 r.2 = true)
                _ _ (map_to_list_submseteq _ _ Hsub)).
  lia.
Qed.

(** A change of status alone keeps the number of applications of a
    pair. *)
Lemma unique_of_set_status st id a v :
  applications st !! id = Some a ->
  unique_applications st ->
  unique_applications
    (Sess.with_applications (insert id (Application.set_status v a)) st).
Proof.
  intros Ha Hun uid jid. specialize (Hun uid jid). unfold select in *.
  simpl.
  rewrite <- (insert_delete_eq (applications st) id) .
  rewrite <- (insert_id (applications st) id a Ha) in Hun.
  rewrite <- (insert_delete_eq (applications st) id) in Hun.
  rewrite (Permutation_length
             (filter_Permutation _ _ _
                (map_to_list_insert _ id _ (lookup_delete_eq _ id)))).
  rewrite (Permutation_length
             (filter_Permutation _ _ _
                (map_to_list_insert _ id a (lookup_delete_eq _ id)))) in Hun.
  rewrite filter_cons in *. simpl in *.
  unfold by_pair in *. simpl in *.
  destruct (decide _); simpl in *; done.
Qed.

Section ResultFacts.

Context `{Models} `{UserModel}.

(** X27. While the store answers, [login_user] returns the user exactly
    when one user has the email and the password check passes, and [None]
    in every other case; when the store fails it returns [None] as
    well. *)
Theorem login_user_result w email password :
  (head (faults w) <> Some true ->
   (login_user email password w).1
   = Return (match select users (by_email email) (db w) with
             | [user] =>
                 if check_password user.2 password then Some user else None
             | _ => None
             end))
  /\ (head (faults w) = Some true ->
      (login_user email password w).1 = Return None).
Proof.
  destruct w as [d ss fs]. unfold login_user. exec.
  split; intros Hf; destruct fs as [|[] fs]; simpl in *; try congruence;
    exec; try done;
    destruct (select users (by_email email) d) as [|u [|u' l]]; exec;
    try done; by destruct (check_password _ _).
Qed.

(** Every run of [update_application_status] leaves the store as it was
    or changes the status of the one application to that of [data]. *)
Lemma update_status_db w application_id (data : dict) :
  db (update_application_status application_id data w).2 = db w
  \/ exists a v,
       applications (db w) !! application_id = Some a
       /\ data !! "status" = Some v
       /\ db (update_application_status application_id data w).2
          = Sess.with_applications
              (insert application_id (Application.set_status v a)) (db w).
Proof.
  destruct w as [d ss fs]. simpl. unfold update_application_status. exec.
  destruct fs as [|[] fs]; exec; try (by left);
    (destruct (applications d !! application_id) as [a|] eqn:Ha; exec;
       [|by left]);
    (destruct (data !! "status") as [v|] eqn:Hd; exec; [|try by left]).
  - right. by exists a, v.
  - destruct fs as [|[] fs]; exec; try (by left); right; by exists a, v.
  - destruct fs as [|[] fs]; exec; by left.
Qed.

(** X28. When [update_application_status] returns a record, the
    application existed, the record is the projection of the application
    with the status of [data], if [data] has one, and the store holds that
    row.  On every path the users, the jobs and every other application
    are as they were, and the application itself is as it was or has the
    status of [data]. *)
Theorem update_status_result w application_id (data : dict) :
  let r := update_application_status application_id data w in
  match r.1 with
  | Return (Some d) =>
      exists a,
        applications (db w) !! application_id = Some a
        /\ let a' := match data !! "status" with
                     | Some v => Application.set_status v a
                     | None => a
                     end in
           d = application_to_dict application_id a'
           /\ db r.2
              = Sess.with_applications (insert application_id a') (db w)
  | _ => True
  end
  /\ users (db r.2) = users (db w)
  /\ jobs (db r.2) = jobs (db w)
  /\ (forall k, k <> application_id ->
        applications (db r.2) !! k = applications (db w) !! k)
  /\ (applications (db r.2) !! application_id
      = applications (db w) !! application_id
      \/ exists a v,
           applications (db w) !! application_id = Some a
           /\ data !! "status" = Some v
           /\ applications (db r.2) !! application_id
              = Some (Application.set_status v a)).
Proof.
  simpl. split.
  - destruct w as [d ss fs]. simpl. unfold update_application_status. exec.
    assert (forall a, applications d !! application_id = Some a ->
              d = Sess.with_applications (insert application_id a) d)
      as Hsame.
    { intros a Ha. destruct d as [us js aps]. unfold Sess.with_applications.
      simpl in *. by rewrite insert_id. }
    destruct fs as [|[] fs]; exec; try done;
      (destruct (applications d !! application_id) as [a|] eqn:Ha; exec;
         [|done]);
      destruct (data !! "status") as [v|] eqn:Hd; exec.
    + by exists a.
    + exists a. simpl. repeat split; try done. by apply Hsame.
    + destruct fs as [|[] fs]; exec; try done; by exists a.
    + destruct fs as [|[] fs]; exec; try done; exists a; simpl;
        repeat split; try done; by apply Hsame.
  - destruct (update_status_db w application_id data)
      as [->|(a & v & Ha & Hd & ->)]; simpl.
    + repeat split; auto.
    + repeat split; try done.
      * intros k Hk. by apply lookup_insert_ne.
      * right. exists a, v. by rewrite lookup_insert_eq.
Qed.

Lemma create_job_keeps_applications w (data : dict) :
  applications (db (create_job data w).2) = applications (db w).
Proof.
  pose proof (Job_of_pure data w) as Hp. unfold create_job.
  destruct (Job_of data w) as [[j|e] w1]; simpl in Hp; subst w1; [|done].
  destruct w as [d ss fs]. exec. by destruct fs as [|[] fs]; exec.
Qed.

Lemma register_user_keeps_applications w
    username password email role phone_number address
    first_name last_name company_name website contact_info :
  applications
    (db (register_user username password email role phone_number address
           first_name last_name company_name website contact_info w).2)
  = applications (db w).
Proof.
  destruct w as [d ss fs]. unfold register_user.
  destruct (validate_role_specific_fields _); [done|]. exec2.
  by destruct fs as [|[] fs]; exec2.
Qed.

(** X29. At most one application for each pair of user and job is an
    invariant of every operation that writes: from a store that has it,
    each call of [create_application], [update_application_status],
    [delete_application], [delete_job], [update_job], [create_job] and
    [register_user] leaves a store that has it, on every path. *)
Theorem unique_applications_invariant w (data : dict) id
    username password email role phone_number address
    first_name last_name company_name website contact_info :
  unique_applications (db w) ->
  unique_applications (db (create_application data w).2)
  /\ unique_applications (db (update_application_status id data w).2)
  /\ unique_applications (db (delete_application id w).2)
  /\ unique_applications (db (delete_job id w).2)
  /\ unique_applications (db (update_job id data w).2)
  /\ unique_applications (db (create_job data w).2)
  /\ unique_applications
       (db (register_user username password email role phone_number
              address first_name last_name company_name website
              contact_info w).2).
Proof.
  intros Hun. split; [|split; [|split; [|split; [|split; [|split]]]]].
  - by apply create_application_keeps_unique.
  - destruct (update_status_db w id data) as [->|(a & v & Ha & _ & ->)];
      [done|]. by apply unique_of_set_status.
  - destruct w as [d ss fs]. rewrite delete_application_runs.
    assert (unique_applications (Sess.with_applications (delete id) d))
      as Hdel
      by (apply (unique_of_subseteq d); [apply delete_subseteq|done]).
    destruct (applications d !! id); destruct fs as [|[] [|[] fs]];
      simpl; done.
  - destruct w as [d ss fs]. rewrite delete_job_runs.
    assert (unique_applications (cascade id d)) as Hcas
      by (apply (unique_of_subseteq d); [apply map_filter_subseteq|done]).
    destruct (jobs d !! id); destruct fs as [|[] [|[] [|[] fs]]];
      simpl; done.
  - destruct (update_job_runs w id data)
      as [->|(j & v1 & v2 & v3 & v4 & v5 & v6 & v7 & v8 & v9 & _ & _ & ->)];
      [done|]. by apply (unique_of_subseteq (db w)).
  - apply (unique_of_subseteq (db w)); [|done].
    by rewrite create_job_keeps_applications.
  - apply (unique_of_subseteq (db w)); [|done].
    by rewrite register_user_keeps_applications.
Qed.

End ResultFacts.

(** X29 at the sample world. *)
Lemma unique_applications_invariant_witness :
  unique_applications
    (db (create_application demo_application_data demo_world).2)
  /\ unique_applications
       (db (update_application_status (H := demo_models) 3
              demo_application_data demo_world).2)
  /\ unique_applications
       (db (delete_application 3 demo_world).2)
  /\ unique_applications (db (delete_job 3 demo_world).2)
  /\ unique_applications
       (db (update_job 3 demo_application_data demo_world).2)
  /\ unique_applications
       (db (create_job demo_application_data demo_world).2)
  /\ unique_applications
       (db (register_user (H0 := demo_user_model) (VStr "bo") (VStr "pw")
              (VStr "bo@example.org") (VStr "job_seeker") (VStr "556")
              (VStr "2 Main St") (VStr "Bo") (VStr "Moyo") VNone VNone
              VNone demo_world).2).
Proof.
  apply (unique_applications_invariant (H := demo_models)
           (H0 := demo_user_model) demo_world demo_application_data 3
           (VStr "bo") (VStr "pw") (VStr "bo@example.org")
           (VStr "job_seeker") (VStr "556") (VStr "2 Main St") (VStr "Bo")
           (VStr "Moyo") VNone VNone VNone).
  apply demo_world_unique.
Defined.

(** The scenario of the specification, run on an empty store: an employer
    registers and posts a job, a seeker registers and applies, the
    employer accepts, and deleting the job removes the application. *)
Example run_scenario :
  let w0 := {| db := {| users := ∅; jobs := ∅; applications := ∅ |};
               sessions := []; faults := [] |} in
  let w1 :=
    (register_user (H0 := demo_user_model) (VStr "acme") (VStr "pw1")
       (VStr "hr@acme.org") (VStr "employer") (VStr "1") (VStr "A St")
       VNone VNone (VStr "Acme") VNone VNone w0).2 in
  let w2 := (create_job (<["employer_id" := VInt 1]> demo_job_data) w1).2 in
  let w3 :=
    (register_user (H0 := demo_user_model) (VStr "bo") (VStr "pw2")
       (VStr "bo@example.org") (VStr "job_seeker") (VStr "2") (VStr "B St")
       (VStr "Bo") (VStr "Moyo") VNone VNone VNone w2).2 in
  let data : dict :=
    <["user_id" := VInt 2]> (<["job_id" := VInt 1]> demo_application_data) in
  let w4 := (create_application data w3).2 in
  let r5 :=
    update_application_status (H := demo_models) 1 demo_status_data w4 in
  let r6 := delete_job 1 r5.2 in
  size (users (db w4)) = 2%nat
  /\ Application.status <$> applications (db w4) !! 1 = Some (VStr "pending")
  /\ (exists d, r5.1 = Return (Some d)
                /\ d !! "status" = Some (VStr "accepted"))
  /\ r6.1 = Return true
  /\ applications (db r6.2) = ∅ /\ jobs (db r6.2) = ∅.
Proof. vm_compute. repeat split; try done. by eexists. Qed.

(** Asked with [True] for the user, the store answers with the
    applications of user 1. *)
Example run_applications_of_truth :
  (get_applications (VBool true) (VStr "job_seeker") demo_world).1
  = Return [(3, demo_application 7); (4, demo_application 8)].
Proof. vm_compute. reflexivity. Qed.
